(** * Tiki: the hierarchical specification language of [tiki-lang]

    A shallow embedding of [tiki/core.py], [tiki/parser.py],
    [tiki/renderer.py], the search of [tiki/navigator.py] and the figures
    that [handle_validate] of [tiki/main.py] reports.

    Text is a [string] of 8-bit characters.  The Python source works on
    Unicode text; the embedding follows it on ASCII, where [str.isspace],
    the regex class [\s], [str.lower] and the class [[0-9a-zA-Z]] are the
    tables below.  Characters above 127 are carried through unchanged (they
    are neither whitespace nor letters here), which is what happens to the
    bytes of UTF-8 encoded text.

    Nodes are Python objects that the parser mutates after creation (a
    parent's child list grows, a description is stored later), so the
    parser is embedded over an explicit store of nodes addressed by their
    creation index.  The exporters and the search only read a finished
    tree; they are embedded over the tree unfolded from the store. *)

From Stdlib Require Import String Ascii List Arith Lia Bool DecimalString
  Sorted Wf_nat.
From stdpp Require Import base list gmap strings.

Local Open Scope list_scope.
Local Open Scope string_scope.

(** ** Characters and strings, as Python's [str] has them *)

Module Py.

(** [str.isspace] on one ASCII character; the same table is the regex [\s]. *)
Definition isspace (c : ascii) : bool :=
  let n := nat_of_ascii c in
  ((9 <=? n)%nat && (n <=? 13)%nat) || ((28 <=? n)%nat && (n <=? 32)%nat).

(** The regex class [[0-9a-zA-Z]]. *)
Definition isalnum (c : ascii) : bool :=
  let n := nat_of_ascii c in
  ((48 <=? n)%nat && (n <=? 57)%nat) || ((65 <=? n)%nat && (n <=? 90)%nat)
  || ((97 <=? n)%nat && (n <=? 122)%nat).

(** The regex class [\w] on ASCII. *)
Definition isword (c : ascii) : bool :=
  isalnum c || Ascii.eqb c "_".

Definition lower_char (c : ascii) : ascii :=
  let n := nat_of_ascii c in
  if (65 <=? n)%nat && (n <=? 90)%nat then ascii_of_nat (n + 32) else c.

(** [s.lower()] *)
Fixpoint lower (s : string) : string :=
  match s with
  | EmptyString => EmptyString
  | String c r => String (lower_char c) (lower r)
  end.

Fixpoint all_chars (p : ascii -> bool) (s : string) : bool :=
  match s with
  | EmptyString => true
  | String c r => p c && all_chars p r
  end.

Fixpoint take_while (p : ascii -> bool) (s : string) : string :=
  match s with
  | EmptyString => EmptyString
  | String c r => if p c then String c (take_while p r) else EmptyString
  end.

Fixpoint drop_while (p : ascii -> bool) (s : string) : string :=
  match s with
  | EmptyString => EmptyString
  | String c r => if p c then drop_while p r else s
  end.

Fixpoint filter_chars (p : ascii -> bool) (s : string) : string :=
  match s with
  | EmptyString => EmptyString
  | String c r => if p c then String c (filter_chars p r) else filter_chars p r
  end.

(** [s.lstrip()], [s.rstrip()], [s.strip()] *)
Definition lstrip (s : string) : string := drop_while isspace s.

Fixpoint rstrip (s : string) : string :=
  match s with
  | EmptyString => EmptyString
  | String c r =>
      match rstrip r with
      | EmptyString => if isspace c then EmptyString else String c EmptyString
      | r' => String c r'
      end
  end.

Definition strip (s : string) : string := rstrip (lstrip s).

(** [s.startswith(p)] *)
Definition startswith (s p : string) : bool := String.prefix p s.

(** [q in s] *)
Fixpoint contains (q s : string) : bool :=
  String.prefix q s
  || match s with
     | EmptyString => false
     | String _ r => contains q r
     end.

(** [s.count(sub)]: occurrences found left to right, never overlapping.
    [skip] characters of the last occurrence are still to be passed. *)
Fixpoint count_from (sub : string) (skip : nat) (s : string) : nat :=
  match s with
  | EmptyString => 0
  | String _ r =>
      match skip with
      | S k => count_from sub k r
      | O => if String.prefix sub s
             then S (count_from sub (String.length sub - 1) r)
             else count_from sub 0 r
      end
  end.

Definition count (s sub : string) : nat :=
  match sub with
  | EmptyString => S (String.length s)
  | _ => count_from sub 0 s
  end.

(** [s.replace(old, "")]: every occurrence of [old], left to right, never
    overlapping, is removed. *)
Fixpoint remove_from (old : string) (skip : nat) (s : string) : string :=
  match s with
  | EmptyString => EmptyString
  | String c r =>
      match skip with
      | S k => remove_from old k r
      | O => if String.prefix old s
             then remove_from old (String.length old - 1) r
             else String c (remove_from old 0 r)
      end
  end.

Definition remove_all (s old : string) : string :=
  match old with
  | EmptyString => s
  | _ => remove_from old 0 s
  end.

(** ["*" * n] *)
Fixpoint stars (n : nat) : string :=
  match n with
  | O => EmptyString
  | S k => String "*" (stars k)
  end.

(** [str(n)] for a non-negative integer *)
Definition str_of_nat (n : nat) : string :=
  NilZero.string_of_uint (Nat.to_uint n).

(** ["\n".join(ls)] *)
Fixpoint join_lines (ls : list string) : string :=
  match ls with
  | [] => EmptyString
  | [l] => l
  | l :: rest => l ++ String "010" (join_lines rest)
  end.

(** [s.split("\n")]; [cur] is the piece being read. *)
Fixpoint split_from (cur : string) (s : string) : list string :=
  match s with
  | EmptyString => [cur]
  | String c r =>
      if Ascii.eqb c "010" then cur :: split_from EmptyString r
      else split_from (cur ++ String c EmptyString) r
  end.

Definition split_lines (s : string) : list string := split_from EmptyString s.

End Py.

(** ** [tiki/core.py]: the node *)

Module Core.

(** A [TikiNode] object.  [parent] and [children] are the references that
    anytree's [Node] keeps; a reference is the index of the node in the
    store.  [metadata] holds the bracketed annotations of the title line as
    they were found; the typed values [_parse_metadata_string] infers from
    them are not part of this development. *)
Record TikiNode : Type := mkTikiNode {
  node_id : string;
  title : string;
  description : string;
  expanded : bool;
  metadata : list string;
  parent : option nat;
  children : list nat
}.

(** The store of node objects, in creation order. *)
Abbreviation Store := (list TikiNode).

(** [TikiNode.depth] *)
Definition depth (n : TikiNode) : nat :=
  match node_id n with
  | EmptyString => 0
  | _ => Py.count (node_id n) "**"
         + (if Py.startswith (node_id n) "*" then 1 else 0)
  end.


(** [TikiNode.tiki_children] *)
Definition tiki_children (n : TikiNode) : list nat := children n.

Definition add_child (c : nat) (n : TikiNode) : TikiNode :=
  mkTikiNode (node_id n) (title n) (description n) (expanded n) (metadata n)
             (parent n) (children n ++ [c]).

Definition set_description (d : string) (n : TikiNode) : TikiNode :=
  mkTikiNode (node_id n) (title n) d (expanded n) (metadata n)
             (parent n) (children n).

Definition set_metadata (m : list string) (n : TikiNode) : TikiNode :=
  mkTikiNode (node_id n) (title n) (description n) (expanded n) m
             (parent n) (children n).

(** [TikiNode.toggle_expanded] *)
Definition toggle_expanded (n : TikiNode) : TikiNode :=
  mkTikiNode (node_id n) (title n) (description n) (negb (expanded n))
             (metadata n) (parent n) (children n).

(** [TikiNode(node_id, title, parent=parent)]: the new object is the next
    one of the store, and anytree appends it to its parent's children. *)
Definition new_node (h : Store) (id ttl : string) (par : option nat)
  : Store * nat :=
  let idx := List.length h in
  let h1 := match par with
            | Some p => alter (add_child idx) p h
            | None => h
            end in
  ((h1 ++ [mkTikiNode id ttl EmptyString true [] par []])%list, idx).

(** The tree below a node, as a reader of a finished parse walks it: the
    node and, in the order of its child list, the trees of its children. *)
#[local] Set Warnings "-register-all".
Inductive Tree : Type :=
| Node (data : TikiNode) (kids : list Tree).
#[local] Set Warnings "register-all".

Definition data_of (t : Tree) : TikiNode :=
  match t with Node d _ => d end.

Definition kids_of (t : Tree) : list Tree :=
  match t with Node _ ks => ks end.

(** The tree of the node at index [i] of a store.  Every child of a node
    is created after it, so a walk is never longer than the store; [fuel]
    bounds it. *)
Fixpoint tree_of (fuel : nat) (h : Store) (i : nat) : option Tree :=
  match fuel with
  | O => None
  | S k =>
      match h !! i with
      | None => None
      | Some d =>
          match mapM (tree_of k h) (children d) with
          | Some ks => Some (Node d ks)
          | None => None
          end
      end
  end.

(** Document order: a node, then the trees of its children from first to
    last (depth first, pre-order). *)
Fixpoint preorder (t : Tree) : list Tree :=
  match t with
  | Node _ ks => t :: flat_map preorder ks
  end.

End Core.

(** ** [tiki/parser.py] *)

Module Parser.
Import Core.

(** What a call can raise: [TikiParseError] with its [line_number] and
    [line_content] attributes, or Python's [IndexError]. *)
Inductive Exception : Type :=
| TikiParseError (message : string) (line_number : nat) (line_content : string)
| IndexError.

Inductive result (A : Type) : Type :=
| Ok (a : A)
| Raise (e : Exception).
Arguments Ok {A} a.
Arguments Raise {A} e.

(** *** The regular expressions of [__init__] *)

(** [concept_pattern.match(line)]: the two groups.  The pattern asks for
    one or more asterisks and then any non-space characters (group 1, the
    marker token: the whole leading run of non-space characters), at least
    one whitespace character, and the rest of the line up to a newline
    (group 2). *)
Definition concept_pattern (line : string) : option (string * string) :=
  if Py.startswith line "*" then
    let tok := Py.take_while (fun c => negb (Py.isspace c)) line in
    match Py.drop_while (fun c => negb (Py.isspace c)) line with
    | EmptyString => None
    | rest =>
        Some (tok, Py.take_while (fun c => negb (Ascii.eqb c "010"))
                                 (Py.drop_while Py.isspace rest))
    end
  else None.

(** [metadata_pattern.findall(s)]: the texts between an opening bracket
    and the next closing bracket, when at least one character lies between
    them.  [open] is the text read since the opening bracket a match may
    start at, if there is one. *)
Fixpoint findall_from (open : option string) (s : string) : list string :=
  match s with
  | EmptyString => []
  | String c r =>
      match open with
      | None =>
          if Ascii.eqb c "[" then findall_from (Some EmptyString) r
          else findall_from None r
      | Some body =>
          if Ascii.eqb c "]" then
            match body with
            | EmptyString => findall_from None r
            | _ => body :: findall_from None r
            end
          else findall_from (Some (body ++ String c EmptyString)) r
      end
  end.

Definition metadata_pattern_findall (s : string) : list string :=
  findall_from None s.

(** [frontmatter_pattern.match(line)]: three dashes, then whitespace only. *)
Definition frontmatter_pattern (line : string) : bool :=
  match line with
  | String "-" (String "-" (String "-" r)) => Py.all_chars Py.isspace r
  | _ => false
  end.

(** [code_block_pattern.match(line)]: three backticks at the start of the
    line, then an optional run of word characters (group 1).  [None] when
    there is no match, else group 1. *)
Definition code_block_pattern (line : string) : option (option string) :=
  match line with
  | String "`" (String "`" (String "`" r)) =>
      match Py.take_while Py.isword r with
      | EmptyString => Some None
      | w => Some (Some w)
      end
  | _ => None
  end.

(** *** The parser object *)

Record TikiParser : Type := mkTikiParser {
  heap : Store;
  root : option nat;
  parent_stack : list nat;
  current_id_parts : list nat;
  line_number : nat;
  frontmatter : list (string * string);
  in_frontmatter : bool;
  in_code_block : bool;
  code_block_lang : option string;
  _frontmatter_lines : option (list string)
}.

(** [TikiParser()] *)
Definition TikiParser_new : TikiParser :=
  mkTikiParser [] None [] (replicate 10 0) 0 [] false false None None.

(** [reset]: every attribute but [_frontmatter_lines] is set again.  The
    nodes of an earlier parse are not reachable from the next one, whose
    store starts empty. *)
Definition reset (self : TikiParser) : TikiParser :=
  mkTikiParser [] None [] (replicate 10 0) 0 [] false false None
               (_frontmatter_lines self).

Definition with_heap (h : Store) (self : TikiParser) : TikiParser :=
  mkTikiParser h (root self) (parent_stack self) (current_id_parts self)
    (line_number self) (frontmatter self) (in_frontmatter self)
    (in_code_block self) (code_block_lang self) (_frontmatter_lines self).

Definition with_line_number (n : nat) (self : TikiParser) : TikiParser :=
  mkTikiParser (heap self) (root self) (parent_stack self)
    (current_id_parts self) n (frontmatter self) (in_frontmatter self)
    (in_code_block self) (code_block_lang self) (_frontmatter_lines self).

Definition with_in_frontmatter (b : bool) (self : TikiParser) : TikiParser :=
  mkTikiParser (heap self) (root self) (parent_stack self)
    (current_id_parts self) (line_number self) (frontmatter self) b
    (in_code_block self) (code_block_lang self) (_frontmatter_lines self).

Definition with_frontmatter_lines (l : list string) (self : TikiParser)
  : TikiParser :=
  mkTikiParser (heap self) (root self) (parent_stack self)
    (current_id_parts self) (line_number self) (frontmatter self)
    (in_frontmatter self) (in_code_block self) (code_block_lang self) (Some l).

Definition with_code_block (b : bool) (lang : option string)
  (self : TikiParser) : TikiParser :=
  mkTikiParser (heap self) (root self) (parent_stack self)
    (current_id_parts self) (line_number self) (frontmatter self)
    (in_frontmatter self) b lang (_frontmatter_lines self).

(** *** [_create_concept_node] *)

(** [for i in range(level, len(parts)): parts[i] = 0] *)
Fixpoint reset_from (level : nat) (parts : list nat) : list nat :=
  match parts with
  | [] => []
  | x :: r =>
      match level with
      | O => 0 :: reset_from 0 r
      | S k => x :: reset_from k r
      end
  end.

(** The id of a node at [level]: for each [i] below [level], [i + 1]
    asterisks followed by [str(parts[i])]. *)
Definition build_id (level : nat) (parts : list nat) : string :=
  String.concat EmptyString
    (map (fun i => Py.stars (i + 1) ++ Py.str_of_nat (nth i parts 0))
         (seq 0 level)).

Definition _create_concept_node (self : TikiParser) (level : nat)
  (ttl : string) (meta : list string) : result (TikiParser * nat) :=
  match ttl with
  | EmptyString => Raise (TikiParseError "Concept title cannot be empty" 0 "")
  | _ =>
    match level with
    | O =>
        match root self with
        | Some _ =>
            Raise (TikiParseError "Multiple root concepts not allowed" 0 "")
        | None =>
            let '(h, idx) := new_node (heap self) EmptyString ttl None in
            Ok (mkTikiParser h (Some idx) [idx] (current_id_parts self)
                  (line_number self) (frontmatter self) (in_frontmatter self)
                  (in_code_block self) (code_block_lang self)
                  (_frontmatter_lines self), idx)
        end
    | S _ =>
        let current_depth := List.length (parent_stack self) - 1 in
        if match parent_stack self with [] => false | _ => true end
           && (current_depth + 1 <? level)%nat
        then Raise (TikiParseError
               ("Invalid level jump: found level " ++ Py.str_of_nat level
                ++ ", expected max " ++ Py.str_of_nat (current_depth + 1))
               0 "")
        else
          match current_id_parts self !! (level - 1) with
          | None => Raise IndexError
          | Some c =>
              let parts :=
                reset_from level
                  (<[level - 1 := c + 1]> (current_id_parts self)) in
              let id := build_id level parts in
              let stack := take level (parent_stack self) in
              let par := last stack in
              let '(h, idx) := new_node (heap self) id ttl par in
              let h := match meta with
                       | [] => h
                       | _ => alter (set_metadata meta) idx h
                       end in
              Ok (mkTikiParser h (root self) (stack ++ [idx]) parts
                    (line_number self) (frontmatter self)
                    (in_frontmatter self) (in_code_block self)
                    (code_block_lang self) (_frontmatter_lines self), idx)
          end
    end
  end.

(** *** [parse] *)

(** The level of a marker token: alphanumeric characters are removed from
    it, then the loop counts the runs of asterisks in what is left.
    [in_group] tells that the previous character was an asterisk of the
    run already counted. *)
Fixpoint count_groups (in_group : bool) (clean_pattern : string) : nat :=
  match clean_pattern with
  | EmptyString => 0
  | String c r =>
      if Ascii.eqb c "*"
      then (if in_group then 0 else 1) + count_groups true r
      else count_groups false r
  end.

Definition level_of (asterisk_part : string) : nat :=
  if Py.startswith asterisk_part "*" then
    count_groups false
      (Py.filter_chars (fun c => negb (Py.isalnum c)) asterisk_part)
  else 0.

(** The title and the annotations of a concept line: every annotation
    found is removed from the title, which is stripped each time. *)
Definition strip_metadata (title_with_metadata : string)
  : string * list string :=
  let metadata_matches := metadata_pattern_findall title_with_metadata in
  (fold_left
     (fun ttl metadata_str =>
        Py.strip (Py.remove_all ttl ("[" ++ metadata_str ++ "]")))
     metadata_matches title_with_metadata,
   metadata_matches).

(** The parser object together with the local variables of the loop of
    [parse].  A node object is true in a condition, so [if current_concept]
    asks whether the variable holds a node. *)
Record Scan : Type := mkScan {
  self : TikiParser;
  current_concept : option nat;
  pending_description_lines : list string
}.

(** [if current_concept and pending_description_lines:
       current_concept.description = "\n".join(...).strip()] *)
Definition store_description (p : TikiParser) (current : option nat)
  (pending : list string) : TikiParser :=
  match current, pending with
  | Some c, _ :: _ =>
      with_heap
        (alter (set_description (Py.strip (Py.join_lines pending))) c (heap p))
        p
  | _, _ => p
  end.

(** One turn of the loop over the lines. *)
Definition parse_line (sc : Scan) (raw : string) : result Scan :=
  let p := with_line_number (line_number (self sc) + 1) (self sc) in
  let current := current_concept sc in
  let pending := pending_description_lines sc in
  let line := Py.rstrip raw in
  if frontmatter_pattern line
     && (negb (in_frontmatter p) && (line_number p <=? 10)%nat)
  then Ok (mkScan (with_in_frontmatter true p) current pending)
  else if frontmatter_pattern line && in_frontmatter p
  then Ok (mkScan (with_in_frontmatter false p) current pending)
  else if in_frontmatter p
  then Ok (mkScan
             (with_frontmatter_lines
                (default [] (_frontmatter_lines p) ++ [line]) p)
             current pending)
  else
    match code_block_pattern line with
    | Some group1 =>
        let p' := if in_code_block p
                  then with_code_block false None p
                  else with_code_block true (Some (default "text" group1)) p in
        Ok (mkScan p' current
              (match current with
               | Some _ => pending ++ [line]
               | None => pending
               end))
    | None =>
        match Py.strip line with
        | EmptyString =>
            Ok (mkScan p current
                  (match current, pending with
                   | Some _, _ :: _ => pending ++ [EmptyString]
                   | _, _ => pending
                   end))
        | _ =>
            match concept_pattern line with
            | Some (asterisk_part, group2) =>
                let p1 := store_description p current pending in
                let '(ttl, meta) := strip_metadata (Py.strip group2) in
                let level := level_of asterisk_part in
                match _create_concept_node p1 level ttl meta with
                | Ok (p2, n) => Ok (mkScan p2 (Some n) [])
                | Raise (TikiParseError msg _ _) =>
                    Raise (TikiParseError msg (line_number p1) line)
                | Raise e => Raise e
                end
            | None =>
                match current with
                | None =>
                    if negb (Py.startswith line "*") then
                      match _create_concept_node p 0 (Py.strip line) [] with
                      | Ok (p2, n) => Ok (mkScan p2 (Some n) [])
                      | Raise e => Raise e
                      end
                    else
                      Raise (TikiParseError
                               "File must start with root concept (no asterisks)"
                               (line_number p) line)
                | Some _ => Ok (mkScan p current (pending ++ [line]))
                end
            end
        end
    end.

Fixpoint parse_lines (sc : Scan) (lines : list string) : result Scan :=
  match lines with
  | [] => Ok sc
  | l :: rest =>
      match parse_line sc l with
      | Ok sc' => parse_lines sc' rest
      | Raise e => Raise e
      end
  end.

(** [parse] over the list of lines: the final parser object (with the
    store of the nodes it made) and the root it returns. *)
Definition parse (parser : TikiParser) (lines : list string)
  : result (TikiParser * nat) :=
  match parse_lines (mkScan (reset parser) None []) lines with
  | Raise e => Raise e
  | Ok sc =>
      let p := store_description (self sc) (current_concept sc)
                 (pending_description_lines sc) in
      match root p with
      | None => Raise (TikiParseError "No valid concepts found in file" 0 "")
      | Some r => Ok (p, r)
      end
  end.

(** [parse_string] *)
Definition parse_string (parser : TikiParser) (content : string)
  : result (TikiParser * nat) :=
  parse parser (Py.split_lines content).

End Parser.

(** ** [tiki/renderer.py]: the plain-text export *)

Module Renderer.
Import Core.

(** [child.node_id in expanded_nodes or child.expanded] *)
Definition shown_expanded (expanded_nodes : gset string) (child : Tree) : bool :=
  bool_decide (node_id (data_of child) ∈ expanded_nodes)
  || expanded (data_of child).

(** [child.tiki_children] as a condition: the list is not empty. *)
Definition has_children (t : Tree) : bool :=
  match kids_of t with
  | [] => false
  | _ => true
  end.

(** The line of a child: prefix, connector, id, a space and the title,
    with the marker of a collapsed node that has children. *)
Definition child_line (prefix connector : string)
  (expanded_nodes : gset string) (child : Tree) : string :=
  let line := prefix ++ connector ++ node_id (data_of child) ++ " "
              ++ title (data_of child) in
  if has_children child && negb (shown_expanded expanded_nodes child)
  then line ++ " [+]"
  else line.

(** [for i, child in enumerate(children)]: the body [f] is run on each
    child with its index, from left to right, threading what it updates. *)
Section Enumerate.
Context {A : Type} (f : nat -> Tree -> A -> A).

Fixpoint for_enumerate (i : nat) (rest : list Tree) (acc : A) : A :=
  match rest with
  | [] => acc
  | child :: rest' => for_enumerate (S i) rest' (f i child acc)
  end.

End Enumerate.

(** [_build_ascii_lines]: the lines are appended to [lines], which the
    Python code mutates and this function returns. *)
Fixpoint _build_ascii_lines (node : Tree) (lines : list string)
  (prefix : string) (is_last : bool) (expanded_nodes : gset string)
  {struct node} : list string :=
  match node with
  | Node _ children =>
      for_enumerate
        (fun i child lines =>
           let is_child_last := (i =? List.length children - 1)%nat in
           let connector := if is_child_last then "└── " else "├── " in
           let next_prefix :=
             if is_child_last then prefix ++ "    " else prefix ++ "│   " in
           let lines :=
             (lines ++ [child_line prefix connector expanded_nodes child])%list in
           if shown_expanded expanded_nodes child && has_children child
           then _build_ascii_lines child lines next_prefix is_child_last
                  expanded_nodes
           else lines)
        0 children lines
  end.

(** [export_ascii_tree(root, expanded_nodes)]; [None] stands for the
    default argument, which becomes the empty set. *)
Definition export_ascii_tree (root : Tree)
  (expanded_nodes : option (gset string)) : string :=
  let expanded_nodes := default ∅ expanded_nodes in
  let lines := [title (data_of root)] in
  Py.join_lines (_build_ascii_lines root lines "" true expanded_nodes).

End Renderer.

(** ** [tiki/navigator.py]: the search *)

Module Navigator.
Import Core.

(** The condition of [search_recursive] on one node. *)
Definition node_matches (query : string) (node : Tree) : bool :=
  Py.contains query (Py.lower (title (data_of node)))
  || Py.contains query (Py.lower (node_id (data_of node))).

(** [search_recursive] of [_search_tree]; [matches] is the list the
    closure appends to. *)
Fixpoint search_recursive (query : string) (node : Tree)
  (matches : list Tree) {struct node} : list Tree :=
  match node with
  | Node _ children =>
      let matches :=
        if node_matches query node then (matches ++ [node])%list
        else matches in
      fold_left (fun matches child => search_recursive query child matches)
                children matches
  end.

(** [_search_tree] *)
Definition _search_tree (root_node : Tree) (query : string) : list Tree :=
  search_recursive query root_node [].

(** What submitting the search input leaves behind: the node the tree
    widget is moved to and the text shown with it, or the message of an
    empty search. *)
Inductive Submitted : Type :=
| Showing (first_match : Tree) (match_count : nat) (result_text : string)
| NoMatches (message : string).

(** [on_input_submitted] for the search input holding [value]. *)
Definition on_input_submitted (root_node : Tree) (value : string) : Submitted :=
  let query := Py.lower value in
  let matches := _search_tree root_node query in
  match matches with
  | first_match :: _ =>
      Showing first_match (List.length matches)
        ("Found " ++ Py.str_of_nat (List.length matches)
         ++ " matches. Showing: " ++ title (data_of first_match))
  | [] => NoMatches ("No matches found for: '" ++ query ++ "'")
  end.

End Navigator.

(** ** Notions the statements below are written with *)

Module Spec.
Import Core Parser.

(** A run of [_create_concept_node] over a list of (level, title), as a
    caller makes it; each node's id is read when the node is returned. *)
Fixpoint create_each (p : TikiParser) (concepts : list (nat * string))
  : result (TikiParser * list string) :=
  match concepts with
  | [] => Ok (p, [])
  | (level, ttl) :: rest =>
      match _create_concept_node p level ttl [] with
      | Raise e => Raise e
      | Ok (p1, n) =>
          match create_each p1 rest with
          | Raise e => Raise e
          | Ok (p2, ids) =>
              Ok (p2, from_option node_id EmptyString (heap p1 !! n) :: ids)
          end
      end
  end.

(** The number of asterisk runs of a string: an asterisk starts a run when
    the character before it is not an asterisk. *)
Fixpoint asterisk_runs (after_star : bool) (s : string) : nat :=
  match s with
  | EmptyString => 0
  | String c r =>
      if Ascii.eqb c "*"
      then (if after_star then 0 else 1) + asterisk_runs true r
      else asterisk_runs false r
  end.

Definition marker_groups (s : string) : nat := asterisk_runs false s.



Local Open Scope list_scope.

(** The parser fields the tree is made of are the same in both. *)
Definition same_tree (p p' : TikiParser) : Prop :=
  heap p' = heap p /\ root p' = root p
  /\ parent_stack p' = parent_stack p
  /\ current_id_parts p' = current_id_parts p.

(** The id [cid] is the id [pid] followed by one more group: a run of
    asterisks, one more than [pid] has groups, and a counter of at least
    1. *)
Definition extends_id (pid cid : string) : Prop :=
  exists c : nat,
    1 <= c
    /\ cid = (pid ++ Py.stars (marker_groups pid + 1) ++ Py.str_of_nat c)%string.

(** The lines a child contributes to the export: its own line and, when
    it is shown expanded and has children, the lines of its descendants. *)
Definition subtree_lines (prefix : string) (is_child_last : bool)
  (expanded_nodes : gset string) (child : Tree) : list string :=
  Renderer.child_line prefix (if is_child_last then "└── " else "├── ")
    expanded_nodes child
  :: (if Renderer.shown_expanded expanded_nodes child && Renderer.has_children child
      then Renderer._build_ascii_lines child []
             (if is_child_last then prefix ++ "    " else prefix ++ "│   ")%string
             is_child_last expanded_nodes
      else []).

End Spec.

(** ** What the parser maintains *)

Module Invariant.
Import Core Parser Spec.
Local Open Scope list_scope.

(** The last character of [s] is an asterisk ([b] when [s] is empty). *)
Fixpoint ends_in_star (b : bool) (s : string) : bool :=
  match s with
  | EmptyString => b
  | String c r => ends_in_star (Ascii.eqb c "*") r
  end.

(** A decimal digit. *)
Definition isdigit (c : ascii) : bool :=
  let n := nat_of_ascii c in (48 <=? n)%nat && (n <=? 57)%nat.

(** What a successful creation below the root did. *)
Definition created (p : TikiParser) (l : nat) (ttl : string) (meta : list string)
  (c : nat) (p' : TikiParser) (n : nat) : Prop :=
  let parts := reset_from (S l) (<[l := c + 1]> (current_id_parts p)) in
  let par := last (take (S l) (parent_stack p)) in
  n = List.length (heap p)
  /\ p' = mkTikiParser
       (match par with
        | Some q => alter (add_child n) q (heap p)
        | None => heap p
        end ++ [mkTikiNode (build_id (S l) parts) ttl "" true meta par []])
       (root p) (take (S l) (parent_stack p) ++ [n]) parts (line_number p)
       (frontmatter p) (in_frontmatter p) (in_code_block p)
       (code_block_lang p) (_frontmatter_lines p).

(** The node at index [i] of the store [h] is the root, or hangs below an
    earlier node whose id it extends and whose child list names it. *)
Definition node_ok (h : Store) (i : nat) (n : TikiNode) : Prop :=
  match parent n with
  | None => i = 0 /\ node_id n = ""
  | Some q =>
      q < i
      /\ exists pn, h !! q = Some pn
                    /\ extends_id (node_id pn) (node_id n)
                    /\ In i (children pn)
  end.

(** The child list of the node at index [i] is in creation order and
    names nodes whose parent is [i]. *)
Definition children_ok (h : Store) (i : nat) (n : TikiNode) : Prop :=
  StronglySorted lt (children n)
  /\ forall j, In j (children n) ->
               exists m, h !! j = Some m /\ parent m = Some i.

Definition tree_ok (h : Store) : Prop :=
  forall i n, h !! i = Some n -> node_ok h i n /\ children_ok h i n.

(** The parser has a root, which is the first node and the bottom of the
    stack, and the node at height [k] of the stack has the id made of the
    first [k] counters. *)
Definition stack_ok (p : TikiParser) : Prop :=
  root p = Some 0
  /\ (exists st, parent_stack p = 0 :: st)
  /\ forall k q, parent_stack p !! k = Some q ->
       exists n, heap p !! q = Some n
                 /\ node_id n = build_id k (current_id_parts p).

(** Two nodes with the same id, parent and children. *)
Definition same_shape (n n' : TikiNode) : Prop :=
  node_id n' = node_id n /\ parent n' = parent n /\ children n' = children n.

(** Before the root exists nothing is known but that no node was made
    while no concept is open; from the root on, the tree is well formed. *)
Definition scan_ok (sc : Scan) : Prop :=
  (root (self sc) = None
   /\ (current_concept sc = None -> heap (self sc) = []))
  \/ (tree_ok (heap (self sc)) /\ stack_ok (self sc)).

End Invariant.

(** ** [tiki/renderer.py]: the styled tree *)

Module Rich.
Import Core.

(** [rich.text.Text(plain, style=style)] *)
Record Text : Type := mkText {
  plain : string;
  style : string
}.

#[local] Set Warnings "-register-all".
(** A [rich.tree.Tree]: its label, its guide style and the branches added
    to it so far, in the order of the calls of [add]. *)
Inductive RichTree : Type :=
| RTree (label : Text) (guide_style : string) (branches : list RichTree).

#[local] Set Warnings "register-all".

Definition label_of (t : RichTree) : Text :=
  match t with RTree l _ _ => l end.

Definition guide_style_of (t : RichTree) : string :=
  match t with RTree _ g _ => g end.

Definition branches_of (t : RichTree) : list RichTree :=
  match t with RTree _ _ bs => bs end.

(** [self.styles[key]] for the keys the class uses. *)
Definition styles (key : string) : string :=
  if String.eqb key "root" then "bold cyan"
  else if String.eqb key "concept" then "bright_white"
  else if String.eqb key "current" then "black on bright_yellow"
  else if String.eqb key "description" then "dim white"
  else if String.eqb key "collapsed" then "dim cyan"
  else "".

(** [current_node and child.node_id == current_node.node_id] *)
Definition is_current (current_node : option Tree) (child : Tree) : bool :=
  match current_node with
  | Some c => String.eqb (node_id (data_of child)) (node_id (data_of c))
  | None => false
  end.

(** The style and the label text of a child. *)
Definition child_style (current_node : option Tree)
  (expanded_nodes : gset string) (child : Tree) : string :=
  if is_current current_node child then styles "current"
  else if Renderer.shown_expanded expanded_nodes child then styles "concept"
  else styles "collapsed".

Definition child_label_text (expanded_nodes : gset string) (child : Tree)
  : string :=
  let label_text := node_id (data_of child) ++ " " ++ title (data_of child) in
  if Renderer.has_children child
     && negb (Renderer.shown_expanded expanded_nodes child)
  then label_text ++ " [+]"
  else label_text.

(** [_add_children_to_tree]: the Python code appends the new branch to
    [parent_tree] and then fills it in place; here the branch is filled
    and then appended, which leaves the same tree.  A branch made by
    [add] takes the guide style of the tree it is added to. *)
Fixpoint _add_children_to_tree (parent_tree : RichTree) (parent_node : Tree)
  (current_node : option Tree) (expanded_nodes : gset string)
  {struct parent_node} : RichTree :=
  match parent_node with
  | Node _ children =>
      fold_left
        (fun parent_tree child =>
           let style := child_style current_node expanded_nodes child in
           let label_text := child_label_text expanded_nodes child in
           let child_tree :=
             RTree (mkText label_text style) (guide_style_of parent_tree) [] in
           let child_tree :=
             if Renderer.shown_expanded expanded_nodes child
             then (if Renderer.has_children child
                   then _add_children_to_tree child_tree child current_node
                          expanded_nodes
                   else child_tree)
             else child_tree in
           RTree (label_of parent_tree) (guide_style_of parent_tree)
                 (branches_of parent_tree ++ [child_tree])%list)
        children parent_tree
  end.

(** [render_tree(root, current_node, expanded_nodes)]; [None] stands for a
    default argument. *)
Definition render_tree (root : Tree) (current_node : option Tree)
  (expanded_nodes : option (gset string)) : RichTree :=
  let expanded_nodes := default ∅ expanded_nodes in
  let tree := RTree (mkText (title (data_of root)) (styles "root"))
                    "bright_blue" [] in
  _add_children_to_tree tree root current_node expanded_nodes.

End Rich.

(** ** [tiki/renderer.py]: the JSON export *)

Module Json.
Import Core.

#[local] Set Warnings "-register-all".
(** The values [export_json] builds: strings, booleans, lists and
    dictionaries with their keys in insertion order.  [JMetadata] is the
    [metadata] dictionary of a node, carried as the node has it. *)
Inductive Value : Type :=
| JString (s : string)
| JBool (b : bool)
| JMetadata (m : list string)
| JArray (items : list Value)
| JObject (members : list (string * Value)).

#[local] Set Warnings "register-all".

(** [node_to_dict] *)
Fixpoint node_to_dict (node : Tree) : Value :=
  match node with
  | Node d children =>
      JObject [("id", JString (node_id d));
               ("title", JString (title d));
               ("description", JString (description d));
               ("expanded", JBool (expanded d));
               ("metadata", JMetadata (metadata d));
               ("children", JArray (map node_to_dict children))]
  end.

(** [export_json] *)
Definition export_json (root : Tree) : Value :=
  JObject [("root", node_to_dict root); ("format_version", JString "1.0")].

End Json.

(** ** [tiki/main.py]: the figures [handle_validate] reports *)

Module Cli.
Import Core.

(** [root_node.descendants] of anytree: every node below the root, in
    pre-order. *)
Definition descendants (root_node : Tree) : list Tree :=
  flat_map preorder (kids_of root_node).

(** [sum(1 for _ in root_node.descendants) + 1] *)
Definition concept_count (root_node : Tree) : nat :=
  List.length (descendants root_node) + 1.

(** [max((node.depth for node in root_node.descendants), default=0)] *)
Definition max_depth (root_node : Tree) : nat :=
  match descendants root_node with
  | [] => 0
  | ds => list_max (map (fun node => depth (data_of node)) ds)
  end.

End Cli.

(** ** Further notions for the statements *)

Module View.
Import Core Parser.

(** The nodes drawn below [t]: each child, followed by what is drawn
    below it when it is shown expanded. *)
Fixpoint shown_below (expanded_nodes : gset string) (t : Tree) : list Tree :=
  match t with
  | Node _ ks =>
      flat_map
        (fun c =>
           c :: (if Renderer.shown_expanded expanded_nodes c
                    && Renderer.has_children c
                 then shown_below expanded_nodes c
                 else []))
        ks
  end.

(** The branches of a styled tree, a branch before what was added to it. *)
Fixpoint walk (t : Rich.RichTree) : list Rich.RichTree :=
  match t with
  | Rich.RTree _ _ bs => t :: flat_map walk bs
  end.

(** [label] is the end of [line]. *)
Definition ends_with (line label : string) : Prop :=
  exists drawing : string, line = drawing ++ label.

(** What [export_json] carries of a tree: everything but the references
    between the node objects. *)
Fixpoint content_of (t : Tree) : Tree :=
  match t with
  | Node d ks =>
      Node (mkTikiNode (node_id d) (title d) (description d) (expanded d)
              (metadata d) None [])
           (map content_of ks)
  end.

(** The parser [p] with [_frontmatter_lines] holding [l]. *)
Definition with_raw_frontmatter (l : option (list string)) (p : TikiParser)
  : TikiParser :=
  mkTikiParser (heap p) (root p) (parent_stack p) (current_id_parts p)
    (line_number p) (frontmatter p) (in_frontmatter p) (in_code_block p)
    (code_block_lang p) l.

(** [_frontmatter_lines] after the lines of [added] were appended to what
    [old] held; the attribute is missing until a line is appended. *)
Definition carried (old added : option (list string))
  : option (list string) :=
  match added with
  | None => old
  | Some l => Some (default [] old ++ l)%list
  end.

(** A line of whitespace only. *)
Definition blank (l : string) : Prop := Py.strip l = "".

(** A line of text: once its trailing whitespace is removed it is not
    empty, no frontmatter delimiter and no concept line. *)
Definition text_line (raw : string) : Prop :=
  frontmatter_pattern (Py.rstrip raw) = false
  /\ Py.strip (Py.rstrip raw) <> ""
  /\ concept_pattern (Py.rstrip raw) = None.

End View.

(** ** The nesting the parent stack maintains *)

Module Nest.
Import Core Parser.
Local Open Scope list_scope.

(** Between a node and any of its children, every node made hangs at or
    below that node. *)
Definition nested (h : Store) : Prop :=
  forall j n q k m,
    h !! j = Some n -> parent n = Some q ->
    q < k -> k < j -> h !! k = Some m ->
    exists pk, parent m = Some pk /\ q <= pk.

(** The stack is in creation order, and every node made after one of its
    entries hangs at or below that entry. *)
Definition stack_nested (p : TikiParser) : Prop :=
  StronglySorted lt (parent_stack p)
  /\ forall k q j n,
       parent_stack p !! k = Some q -> heap p !! j = Some n -> q < j ->
       exists pj, parent n = Some pj /\ q <= pj.

(** The node at [k] of the store hangs below the node at [i]. *)
Definition child_of (h : Store) (i k : nat) : Prop :=
  exists m, h !! k = Some m /\ parent m = Some i.

(** The scan has no root yet, or its store and stack are nested. *)
Definition scan_nested (sc : Scan) : Prop :=
  root (self sc) = None
  \/ (nested (heap (self sc)) /\ stack_nested (self sc)).

(** The child list [cs] begins at index [s], or is empty when [s] is the
    end [e] of the part it covers. *)
Definition starts_at (cs : list nat) (s e : nat) : Prop :=
  match cs with
  | [] => s = e
  | c :: _ => c = s
  end.

(** The part [h[a:b]] of a store. *)
Definition slice (h : Store) (a b : nat) : Store := take (b - a) (drop a h).

(** What every node of a fresh parse satisfies. *)
Definition fresh_node (n : TikiNode) : Prop :=
  title n <> "" /\ Py.strip (title n) = title n
  /\ Py.strip (description n) = description n
  /\ expanded n = true.

End Nest.

(** * Proofs *)

Import Core Parser Spec Invariant.
Local Open Scope string_scope.
Local Open Scope list_scope.

(** ** Counters, stores and what a creation does *)

Lemma reset_from_length k (l : list nat) : List.length (reset_from k l) = List.length l.
Proof. revert k; induction l as [|x l IH]; intros [|k]; simpl; auto. Qed.

Lemma reset_from_lookup_lt k (l : list nat) i :
  i < k -> reset_from k l !! i = l !! i.
Proof.
  revert k i; induction l as [|x l IH]; intros [|k] [|i] H; simpl; auto; try lia.
  apply IH; lia.
Qed.

Lemma reset_from_lookup_ge k (l : list nat) i :
  k <= i -> i < List.length l -> reset_from k l !! i = Some 0.
Proof.
  revert k i; induction l as [|x l IH]; intros [|k] [|i] H1 H2; simpl in *;
    auto; try lia; apply IH; lia.
Qed.

Lemma alter_app_last {A} (f : A -> A) (h : list A) (x : A) (n : nat) :
  List.length h = n -> alter f n (h ++ [x]) = h ++ [f x].
Proof.
  intros <-. induction h as [|y h IH]; simpl; [reflexivity|]. f_equal. exact IH.
Qed.

Lemma create_level_inv p l ttl meta p' n :
  _create_concept_node p (S l) ttl meta = Ok (p', n) ->
  ttl <> ""
  /\ (parent_stack p = [] \/ S l <= List.length (parent_stack p))
  /\ exists c, current_id_parts p !! l = Some c /\ created p l ttl meta c p' n.
Proof.
  unfold _create_concept_node.
  destruct ttl as [|a ttl]; [discriminate|].
  destruct (_ && _) eqn:Hjump; [discriminate|].
  replace (S l - 1) with l by lia.
  destruct (current_id_parts p !! l) as [c|] eqn:Hc; [|discriminate].
  unfold new_node. intros H.
  split; [discriminate|]. split.
  - destruct (parent_stack p) as [|x st]; [left; reflexivity|right].
    simpl in Hjump. apply Nat.ltb_ge in Hjump. simpl. lia.
  - exists c. split; [reflexivity|]. unfold created.
    set (par := last (take (S l) (parent_stack p))) in *.
    set (h1 := match par with Some q => alter (add_child (List.length (heap p))) q (heap p) | None => heap p end) in *.
    assert (Hlen : List.length h1 = List.length (heap p)).
    { unfold h1. destruct par; [apply length_alter|reflexivity]. }
    destruct meta as [|m meta]; inversion H; subst; clear H; split; try reflexivity.
    f_equal. exact (alter_app_last (set_metadata (m :: meta)) h1 _ _ Hlen).
Qed.

Lemma create_level_ok p l ttl meta c :
  ttl <> "" ->
  (parent_stack p = [] \/ S l <= List.length (parent_stack p)) ->
  current_id_parts p !! l = Some c ->
  exists p' n, _create_concept_node p (S l) ttl meta = Ok (p', n)
               /\ created p l ttl meta c p' n.
Proof.
  intros Ht Hst Hc. unfold _create_concept_node.
  destruct ttl as [|a ttl]; [congruence|].
  assert (Hjump : match parent_stack p with [] => false | _ => true end
                  && (List.length (parent_stack p) - 1 + 1 <? S l)%nat = false).
  { destruct Hst as [->|Hle]; [reflexivity|].
    destruct (parent_stack p) as [|x st]; [reflexivity|]. simpl in *.
    apply Nat.ltb_ge. lia. }
  rewrite Hjump. replace (S l - 1) with l by lia. rewrite Hc.
  unfold new_node, created.
  set (par := last (take (S l) (parent_stack p))) in *.
  set (h1 := match par with Some q => alter (add_child (List.length (heap p))) q (heap p) | None => heap p end) in *.
  assert (Hlen : List.length h1 = List.length (heap p)).
  { unfold h1. destruct par; [apply length_alter|reflexivity]. }
  destruct meta as [|m meta]; eexists _, _; (split; [reflexivity|]); split; try reflexivity.
  f_equal. exact (alter_app_last (set_metadata (m :: meta)) h1 _ _ Hlen).
Qed.

(** The counters are ten: a creation at a level beyond them ends in
    Python's [IndexError], which [parse] does not catch. *)
Lemma create_beyond_counters p l ttl meta :
  ttl <> "" ->
  (parent_stack p = [] \/ S l <= List.length (parent_stack p)) ->
  List.length (current_id_parts p) <= l ->
  _create_concept_node p (S l) ttl meta = Raise IndexError.
Proof.
  intros Ht Hst Hlen. unfold _create_concept_node.
  destruct ttl as [|a ttl]; [congruence|].
  assert (Hjump : match parent_stack p with [] => false | _ => true end
                  && (List.length (parent_stack p) - 1 + 1 <? S l)%nat = false).
  { destruct Hst as [->|Hle]; [reflexivity|].
    destruct (parent_stack p) as [|x st]; [reflexivity|]. simpl in *.
    apply Nat.ltb_ge. lia. }
  rewrite Hjump. replace (S l - 1) with l by lia.
  rewrite (proj2 (lookup_ge_None _ _) Hlen). reflexivity.
Qed.

(** A level more than one below the open concept is refused. *)
Lemma create_level_jump p l ttl meta :
  ttl <> "" -> parent_stack p <> [] ->
  List.length (parent_stack p) < S l ->
  _create_concept_node p (S l) ttl meta
  = Raise (TikiParseError
             ("Invalid level jump: found level " ++ Py.str_of_nat (S l)
              ++ ", expected max "
              ++ Py.str_of_nat (List.length (parent_stack p) - 1 + 1))%string
             0 "").
Proof.
  intros Ht Hst Hlen. unfold _create_concept_node.
  destruct ttl as [|a ttl]; [congruence|].
  destruct (parent_stack p) as [|x st] eqn:E; [congruence|].
  cbn [andb]. rewrite (proj2 (Nat.ltb_lt _ _)) by (simpl in *; lia).
  reflexivity.
Qed.

Lemma created_fields p l ttl meta c p' n :
  created p l ttl meta c p' n ->
  n = List.length (heap p)
  /\ current_id_parts p' = reset_from (S l) (<[l := c + 1]> (current_id_parts p))
  /\ parent_stack p' = take (S l) (parent_stack p) ++ [n]
  /\ root p' = root p
  /\ heap p' !! n
     = Some (mkTikiNode (build_id (S l) (current_id_parts p')) ttl "" true meta
               (last (take (S l) (parent_stack p))) []).
Proof.
  intros [Hn ->]. simpl. repeat split; try assumption.
  rewrite Hn. apply list_lookup_middle.
  destruct (last _); [symmetry; apply length_alter|reflexivity].
Qed.

(** One creation in a run of [create_each]. *)
Lemma create_each_step p l ttl rest c :
  ttl <> "" ->
  S l <= List.length (parent_stack p) ->
  current_id_parts p !! l = Some c ->
  exists p1,
    current_id_parts p1 = reset_from (S l) (<[l := c + 1]> (current_id_parts p))
    /\ parent_stack p1 = take (S l) (parent_stack p) ++ [List.length (heap p)]
    /\ create_each p ((S l, ttl) :: rest)
       = match create_each p1 rest with
         | Raise e => Raise e
         | Ok (p2, ids) => Ok (p2, build_id (S l) (current_id_parts p1) :: ids)
         end.
Proof.
  intros Ht Hst Hc.
  destruct (create_level_ok p l ttl [] c Ht (or_intror Hst) Hc) as (p1 & n & E & Hcr).
  apply created_fields in Hcr as (-> & Hparts & Hstack & _ & Hlook).
  exists p1. repeat split; try assumption.
  cbn [create_each]. rewrite E, Hlook. reflexivity.
Qed.

(** C3.  Under a root, creating concepts at levels 1, 2, 2, 1, 2 gives
    the ids [*1], [*1**1], [*1**2], [*2], [*2**1]; and every creation at a
    level [L] of 1 or more that succeeds adds 1 to the counter of level
    [L], sets every counter of a deeper level to 0 and leaves the
    counters of the levels above alone. *)
Theorem C3_numbering :
  (forall p r t1 t2 t3 t4 t5,
     parent_stack p = [r] ->
     current_id_parts p = replicate 10 0 ->
     t1 <> "" -> t2 <> "" -> t3 <> "" -> t4 <> "" -> t5 <> "" ->
     exists p',
       create_each p [(1, t1); (2, t2); (2, t3); (1, t4); (2, t5)]
       = Ok (p', ["*1"; "*1**1"; "*1**2"; "*2"; "*2**1"]))
  /\ (forall p level ttl meta p' n,
        1 <= level ->
        _create_concept_node p level ttl meta = Ok (p', n) ->
        (exists c, current_id_parts p !! (level - 1) = Some c
                   /\ current_id_parts p' !! (level - 1) = Some (c + 1))
        /\ (forall i, level <= i -> i < List.length (current_id_parts p) ->
                      current_id_parts p' !! i = Some 0)
        /\ (forall i, i < level - 1 ->
                      current_id_parts p' !! i = current_id_parts p !! i)
        /\ List.length (current_id_parts p') = List.length (current_id_parts p)).
Proof.
  split.
  - intros p r t1 t2 t3 t4 t5 Hst Hparts H1 H2 H3 H4 H5.
    destruct (create_each_step p 0 t1 [(2, t2); (2, t3); (1, t4); (2, t5)] 0 H1)
      as (p1 & Hp1 & Hs1 & ->); [rewrite Hst; simpl; lia|rewrite Hparts; reflexivity|].
    rewrite Hst, Hparts in *. cbn in Hp1, Hs1.
    destruct (create_each_step p1 1 t2 [(2, t3); (1, t4); (2, t5)] 0 H2)
      as (p2 & Hp2 & Hs2 & ->); [rewrite Hs1; simpl; lia|rewrite Hp1; reflexivity|].
    rewrite Hs1, Hp1 in *. cbn in Hp2, Hs2.
    destruct (create_each_step p2 1 t3 [(1, t4); (2, t5)] 1 H3)
      as (p3 & Hp3 & Hs3 & ->); [rewrite Hs2; simpl; lia|rewrite Hp2; reflexivity|].
    rewrite Hs2, Hp2 in *. cbn in Hp3, Hs3.
    destruct (create_each_step p3 0 t4 [(2, t5)] 1 H4)
      as (p4 & Hp4 & Hs4 & ->); [rewrite Hs3; simpl; lia|rewrite Hp3; reflexivity|].
    rewrite Hs3, Hp3 in *. cbn in Hp4, Hs4.
    destruct (create_each_step p4 1 t5 [] 0 H5)
      as (p5 & Hp5 & Hs5 & ->); [rewrite Hs4; simpl; lia|rewrite Hp4; reflexivity|].
    rewrite Hp4 in *. cbn in Hp5.
    exists p5. cbn [create_each]. rewrite Hp5. reflexivity.
  - intros p level ttl meta p' n Hlevel Hcreate.
    destruct level as [|l]; [lia|].
    apply create_level_inv in Hcreate as (_ & _ & c & Hc & Hcr).
    apply created_fields in Hcr as (_ & Hparts & _).
    replace (S l - 1) with l by lia.
    assert (Hl : l < List.length (current_id_parts p)) by (eapply lookup_lt_Some; eauto).
    rewrite Hparts. repeat split.
    + exists c. split; [assumption|].
      rewrite reset_from_lookup_lt by lia. apply list_lookup_insert_eq. assumption.
    + intros i Hi Hlen. apply reset_from_lookup_ge; [assumption|].
      rewrite length_insert. assumption.
    + intros i Hi. rewrite reset_from_lookup_lt by lia.
      apply list_lookup_insert_ne. lia.
    + rewrite reset_from_length, length_insert. reflexivity.
Qed.

Lemma C3_numbering_witness :
  (exists p',
     create_each
       (mkTikiParser [mkTikiNode "" "Root" "" true [] None []] (Some 0) [0]
          (replicate 10 0) 1 [] false false None None)
       [(1, "a"); (2, "b"); (2, "c"); (1, "d"); (2, "e")]
     = Ok (p', ["*1"; "*1**1"; "*1**2"; "*2"; "*2**1"]))
  /\ (let p := mkTikiParser
                 [mkTikiNode "" "Root" "" true [] None [1];
                  mkTikiNode "*2" "x" "" true [] (Some 0) []]
                 (Some 0) [0; 1] [2; 3; 1; 0; 0; 0; 0; 0; 0; 0] 1 [] false
                 false None None in
       exists p' n,
         _create_concept_node p 2 "y" [] = Ok (p', n)
         /\ exists c, current_id_parts p !! 1 = Some c
                      /\ current_id_parts p' !! 1 = Some (c + 1)).
Proof.
  split.
  - apply (proj1 C3_numbering _ 0); try reflexivity; discriminate.
  - cbv zeta. eexists _, _. split; [vm_compute; reflexivity|].
    refine (proj1 (proj2 C3_numbering _ 2 "y" [] _ _ _ _));
      [lia | vm_compute; reflexivity].
Defined.

(** ** Ids as strings *)

Lemma asterisk_runs_app b s1 s2 :
  asterisk_runs b (s1 ++ s2)%string
  = asterisk_runs b s1 + asterisk_runs (ends_in_star b s1) s2.
Proof.
  revert b; induction s1 as [|c r IH]; intros b; simpl; [reflexivity|].
  destruct (Ascii.eqb c "*"); rewrite IH; lia.
Qed.

Lemma ends_in_star_app b s1 s2 :
  ends_in_star b (s1 ++ s2)%string = ends_in_star (ends_in_star b s1) s2.
Proof. revert b; induction s1 as [|c r IH]; intros b; simpl; auto. Qed.

Lemma digits_no_star b s :
  Py.all_chars isdigit s = true -> asterisk_runs b s = 0.
Proof.
  revert b; induction s as [|c r IH]; intros b H; simpl in *; [reflexivity|].
  apply andb_prop in H as [Hc Hr].
  destruct (Ascii.eqb_spec c "*") as [->|_]; [discriminate|]. auto.
Qed.

Lemma digits_end b s :
  s <> "" -> Py.all_chars isdigit s = true -> ends_in_star b s = false.
Proof.
  revert b; induction s as [|c r IH]; intros b Hne H; simpl in *; [congruence|].
  apply andb_prop in H as [Hc Hr].
  destruct (Ascii.eqb_spec c "*") as [->|_]; [discriminate|].
  destruct r as [|c' r']; [reflexivity|]. apply IH; [discriminate|assumption].
Qed.

Lemma string_of_uint_digits d :
  Py.all_chars isdigit (NilEmpty.string_of_uint d) = true.
Proof. induction d; simpl; auto. Qed.

Lemma str_of_nat_digits n : Py.all_chars isdigit (Py.str_of_nat n) = true.
Proof.
  unfold Py.str_of_nat, NilZero.string_of_uint.
  pose proof (string_of_uint_digits (Nat.to_uint n)) as H.
  destruct (Nat.to_uint n); [reflexivity|exact H..].
Qed.

Lemma str_of_nat_nonempty n : Py.str_of_nat n <> "".
Proof.
  unfold Py.str_of_nat, NilZero.string_of_uint.
  destruct (Nat.to_uint n); discriminate.
Qed.

Create HintDb tiki discriminated.
#[local] Hint Resolve str_of_nat_digits str_of_nat_nonempty : tiki.

Lemma stars_runs k : asterisk_runs true (Py.stars k) = 0.
Proof. induction k; simpl; auto. Qed.

Lemma stars_end b k : ends_in_star b (Py.stars (S k)) = true.
Proof. revert b; induction k as [|k IH]; intros b; [reflexivity|]. apply (IH true). Qed.

Lemma append_cons (c : ascii) (a b : string) :
  (String c a ++ b)%string = String c (a ++ b)%string.
Proof. reflexivity. Qed.

Lemma append_empty_r (s : string) : (s ++ "")%string = s.
Proof. induction s; [reflexivity|]. rewrite append_cons. congruence. Qed.

Lemma append_assoc (a b c : string) :
  ((a ++ b) ++ c)%string = (a ++ b ++ c)%string.
Proof. induction a; [reflexivity|]. rewrite !append_cons. congruence. Qed.

Lemma concat_empty_cons (x : string) (l : list string) :
  String.concat "" (x :: l) = (x ++ String.concat "" l)%string.
Proof.
  destruct l as [|y l]; [|reflexivity].
  simpl. symmetry. apply append_empty_r.
Qed.

Lemma concat_empty_app (l1 l2 : list string) :
  String.concat "" (l1 ++ l2) = (String.concat "" l1 ++ String.concat "" l2)%string.
Proof.
  induction l1 as [|x l1 IH]; [reflexivity|].
  rewrite <- app_comm_cons, !concat_empty_cons, IH.
  symmetry. apply append_assoc.
Qed.

Lemma build_id_S k parts :
  build_id (S k) parts
  = (build_id k parts ++ Py.stars (k + 1) ++ Py.str_of_nat (nth k parts 0))%string.
Proof.
  unfold build_id. rewrite seq_S, map_app, concat_empty_app. simpl.
  reflexivity.
Qed.

Lemma build_id_groups k parts :
  marker_groups (build_id k parts) = k
  /\ ends_in_star false (build_id k parts) = false.
Proof.
  unfold marker_groups. induction k as [|k [IH1 IH2]]; [split; reflexivity|].
  rewrite build_id_S. split.
  - rewrite asterisk_runs_app, IH1, IH2, asterisk_runs_app.
    replace (k + 1) with (S k) by lia. rewrite stars_end. simpl.
    rewrite stars_runs, digits_no_star by auto with tiki. lia.
  - rewrite !ends_in_star_app. apply digits_end; auto with tiki.
Qed.

Lemma build_id_ext k parts parts' :
  (forall i, i < k -> parts' !! i = parts !! i) ->
  build_id k parts' = build_id k parts.
Proof.
  intros H. unfold build_id. f_equal. apply map_ext_in.
  intros i Hi. apply in_seq in Hi. f_equal. f_equal.
  rewrite !nth_lookup, H by lia. reflexivity.
Qed.

(** ** The lines of [parse] *)

Lemma same_tree_refl p : same_tree p p.
Proof. repeat split. Qed.

(** The three things a line can do: leave the tree alone, create a
    concept below the root, or create the root. *)
Lemma parse_line_cases sc raw sc' :
  parse_line sc raw = Ok sc' ->
  let p := with_line_number (line_number (self sc) + 1) (self sc) in
  (same_tree (self sc) (self sc')
   /\ current_concept sc' = current_concept sc)
  \/ (exists tok group2 ttl meta n,
        concept_pattern (Py.rstrip raw) = Some (tok, group2)
        /\ _create_concept_node
             (store_description p (current_concept sc)
                (pending_description_lines sc))
             (level_of tok) ttl meta = Ok (self sc', n)
        /\ current_concept sc' = Some n)
  \/ (exists ttl n,
        current_concept sc = None
        /\ _create_concept_node p 0 ttl [] = Ok (self sc', n)
        /\ current_concept sc' = Some n).
Proof.
  intros H. cbv zeta. unfold parse_line in H.
  set (p := with_line_number (line_number (self sc) + 1) (self sc)) in *.
  set (line := Py.rstrip raw) in *.
  destruct (frontmatter_pattern line && (negb (in_frontmatter p) && (line_number p <=? 10)%nat)) eqn:E1.
  { inversion H; subst; left; unfold same_tree; simpl; auto. }
  destruct (frontmatter_pattern line && in_frontmatter p) eqn:E2.
  { inversion H; subst; left; unfold same_tree; simpl; auto. }
  destruct (in_frontmatter p) eqn:E3.
  { inversion H; subst; left; unfold same_tree; simpl; auto. }
  destruct (code_block_pattern line) as [g|] eqn:E4.
  { destruct (in_code_block p); inversion H; subst; left; unfold same_tree; simpl; auto. }
  destruct (Py.strip line) eqn:E5.
  { inversion H; subst; left; unfold same_tree; simpl; auto. }
  destruct (concept_pattern line) as [[tok group2]|] eqn:E6.
  - destruct (strip_metadata (Py.strip group2)) as [ttl meta] eqn:E7.
    destruct (_create_concept_node _ (level_of tok) ttl meta) as [[p2 n]|e] eqn:E8.
    + inversion H; subst. right; left. exists tok, group2, ttl, meta, n.
      repeat split; try reflexivity; try exact E8.
    + destruct e; discriminate.
  - destruct (current_concept sc) as [c|] eqn:E7.
    + inversion H; subst; left; unfold same_tree; simpl; auto.
    + destruct (negb (Py.startswith line "*")); [|discriminate].
      destruct (_create_concept_node p 0 _ []) as [[p2 n]|e] eqn:E8; [|discriminate].
      inversion H; subst. right; right. eexists _, n. repeat split; try reflexivity; try exact E8.
Qed.

Lemma startswith_star s :
  Py.startswith s "*" = true -> exists r, s = String "*" r.
Proof.
  destruct s as [|c r]; [discriminate|].
  unfold Py.startswith.
  change (String.prefix "*" (String c r))
    with (if ascii_dec "*" c then String.prefix "" r else false).
  destruct (ascii_dec "*" c) as [<-|]; [|discriminate].
  intros _. exists r. reflexivity.
Qed.

Lemma startswith_star_cons t : Py.startswith (String "*" t) "*" = true.
Proof. destruct t; reflexivity. Qed.

Lemma concept_pattern_level line tok group2 :
  concept_pattern line = Some (tok, group2) -> 1 <= level_of tok.
Proof.
  unfold concept_pattern.
  destruct (Py.startswith line "*") eqn:Hs; [|discriminate].
  apply startswith_star in Hs as [r ->].
  destruct (Py.drop_while _ _); [discriminate|].
  intros H. inversion H; subst; clear H.
  change (Py.take_while (fun c => negb (Py.isspace c)) (String "*" r))
    with (String "*" (Py.take_while (fun c => negb (Py.isspace c)) r)).
  unfold level_of. rewrite startswith_star_cons.
  cbn [Py.filter_chars]. change (negb (Py.isalnum "*")) with true. cbn iota.
  cbn [count_groups]. change (Ascii.eqb "*" "*") with true. cbn iota. lia.
Qed.

(** ** The invariant of the store *)

Lemma tree_ok_alter_shape h f c :
  (forall n, same_shape n (f n)) ->
  tree_ok h -> tree_ok (alter f c h).
Proof.
  intros Hf Hok i n' Hi.
  assert (Hlook : forall j, alter f c h !! j = None /\ h !! j = None
                            \/ exists m, h !! j = Some m
                                 /\ exists m', alter f c h !! j = Some m' /\ same_shape m m').
  { intros j. destruct (h !! j) as [m|] eqn:Hj.
    - right. exists m. split; [reflexivity|].
      destruct (decide (j = c)) as [->|Hne].
      + exists (f m). split; [|apply Hf].
        rewrite list_lookup_alter_eq, Hj. reflexivity.
      + exists m. split; [|repeat split].
        rewrite list_lookup_alter_ne by congruence. exact Hj.
    - left. split; [|reflexivity].
      apply lookup_ge_None. rewrite length_alter. apply lookup_ge_None. exact Hj. }
  destruct (Hlook i) as [[Hn _]|(n & Hn & m' & Hm' & Hs1 & Hs2 & Hs3)]; [congruence|].
  rewrite Hi in Hm'. inversion Hm'; subst m'; clear Hm'.
  destruct (Hok i n Hn) as [Hnode Hch]. split.
  - unfold node_ok in *. rewrite Hs2, Hs1.
    destruct (parent n) as [q|]; [|exact Hnode].
    destruct Hnode as (Hq & pn & Hpn & Hext & Hin). split; [exact Hq|].
    destruct (Hlook q) as [[_ Hn']|(pn0 & Hpn0 & pn' & Hpn' & Hp1 & Hp2 & Hp3)]; [congruence|].
    assert (pn0 = pn) by congruence; subst pn0.
    exists pn'. rewrite Hp1, Hp3. auto.
  - unfold children_ok in *. rewrite Hs3.
    destruct Hch as [Hsort Hkids]. split; [exact Hsort|].
    intros j Hj. destruct (Hkids j Hj) as (m & Hm & Hpar).
    destruct (Hlook j) as [[_ Hn']|(m0 & Hm0 & m' & Hm' & Hp1 & Hp2 & Hp3)]; [congruence|].
    assert (m0 = m) by congruence; subst m0.
    exists m'. rewrite Hp2. auto.
Qed.

Lemma stack_ok_alter_shape p f c p' :
  (forall n, same_shape n (f n)) ->
  heap p' = alter f c (heap p) ->
  root p' = root p -> parent_stack p' = parent_stack p ->
  current_id_parts p' = current_id_parts p ->
  stack_ok p -> stack_ok p'.
Proof.
  intros Hf Hh Hr Hs Hp (Hroot & Hst & Hk).
  unfold stack_ok. rewrite Hr, Hs, Hp, Hh. repeat split; [assumption..|].
  intros k q Hq. destruct (Hk k q Hq) as (n & Hn & Hid).
  destruct (decide (q = c)) as [->|Hne].
  - exists (f n). rewrite list_lookup_alter_eq, Hn. split; [reflexivity|].
    destruct (Hf n) as (-> & _). exact Hid.
  - exists n. rewrite list_lookup_alter_ne by congruence. auto.
Qed.

Lemma sorted_snoc (l : list nat) (n : nat) :
  StronglySorted lt l -> (forall j, In j l -> j < n) ->
  StronglySorted lt (l ++ [n]).
Proof.
  induction 1 as [|x l Hs IH Hall]; intros Hlt; simpl.
  - repeat constructor.
  - constructor.
    + apply IH. intros j Hj. apply Hlt. right; exact Hj.
    + apply Forall_app. split; [exact Hall|].
      constructor; [|constructor]. apply Hlt. left; reflexivity.
Qed.

Lemma last_take_lookup {A} (st : list A) l :
  S l <= List.length st -> last (take (S l) st) = st !! l.
Proof.
  intros H. rewrite last_lookup, length_take.
  replace (Init.Nat.pred (S l `min` List.length st)) with l by lia.
  apply lookup_take_lt. lia.
Qed.

(** The store after a creation, seen from the store before it: the new
    node [new] is appended at index [n] and named in the child list of
    its parent [q]. *)
Section CreatedStore.
Variables (h : Store) (q n : nat) (new : TikiNode).
Hypothesis Hn : n = List.length h.

Lemma created_store_old j m :
  h !! j = Some m ->
  exists m', (alter (add_child n) q h ++ [new]) !! j = Some m'
             /\ node_id m' = node_id m /\ parent m' = parent m
             /\ children m' = if decide (j = q) then children m ++ [n] else children m.
Proof.
  intros Hj. assert (j < List.length h) by (eapply lookup_lt_Some; eauto).
  rewrite lookup_app_l by (rewrite length_alter; assumption).
  destruct (decide (j = q)) as [->|Hne].
  - exists (add_child n m). rewrite list_lookup_alter_eq, Hj. repeat split.
  - exists m. rewrite list_lookup_alter_ne by congruence. repeat split. exact Hj.
Qed.

Lemma created_store_inv j m' :
  (alter (add_child n) q h ++ [new]) !! j = Some m' ->
  (j = n /\ m' = new)
  \/ (j < n /\ exists m, h !! j = Some m
        /\ node_id m' = node_id m /\ parent m' = parent m
        /\ children m' = if decide (j = q) then children m ++ [n] else children m).
Proof.
  intros Hj.
  destruct (decide (j < List.length h)) as [Hlt|Hge].
  - right. split; [lia|]. destruct (lookup_lt_is_Some_2 h j Hlt) as [m Hm].
    exists m. split; [exact Hm|].
    destruct (created_store_old j m Hm) as (m0 & Hm0 & Hrest).
    rewrite Hj in Hm0. inversion Hm0; subst. exact Hrest.
  - left. rewrite lookup_app_r in Hj by (rewrite length_alter; lia).
    rewrite length_alter in Hj.
    destruct (j - List.length h) as [|k] eqn:Hk; simpl in Hj; [|discriminate].
    split; [lia|congruence].
Qed.

End CreatedStore.

Lemma create_preserves p l ttl meta p' n :
  tree_ok (heap p) -> stack_ok p ->
  _create_concept_node p (S l) ttl meta = Ok (p', n) ->
  tree_ok (heap p') /\ stack_ok p'.
Proof.
  intros Htree (Hroot & [st Hst] & Hstack) Hcreate.
  apply create_level_inv in Hcreate as (_ & Hjump & c & Hc & Hn & ->).
  destruct Hjump as [Hnil|Hjump]; [congruence|].
  rewrite last_take_lookup by exact Hjump.
  destruct (lookup_lt_is_Some_2 (parent_stack p) l) as [q Hq]; [lia|].
  rewrite Hq. destruct (Hstack l q Hq) as (pn & Hpn & Hpid).
  set (parts := reset_from (S l) (<[l := c + 1]> (current_id_parts p))).
  assert (Hparts : forall k, k <= l ->
            build_id k parts = build_id k (current_id_parts p)).
  { intros k Hk. apply build_id_ext. intros i Hi. unfold parts.
    rewrite reset_from_lookup_lt by lia. apply list_lookup_insert_ne. lia. }
  assert (Hcount : nth l parts 0 = c + 1).
  { rewrite nth_lookup. unfold parts. rewrite reset_from_lookup_lt by lia.
    rewrite list_lookup_insert_eq; [reflexivity|]. eapply lookup_lt_Some; eauto. }
  set (new := mkTikiNode (build_id (S l) parts) ttl "" true meta (Some q) []).
  assert (Hnew : (alter (add_child n) q (heap p) ++ [new]) !! n = Some new).
  { apply list_lookup_middle. rewrite length_alter. exact Hn. }
  assert (Hqn : q < n) by (rewrite Hn; eapply lookup_lt_Some; eauto).
  simpl. split.
  - intros i n' Hi.
    apply (created_store_inv _ _ _ _ Hn) in Hi
      as [[-> ->]|(Hlt & m & Hm & Hid & Hpar & Hkids)].
    + split.
      * unfold node_ok. simpl. split; [exact Hqn|].
        destruct (created_store_old _ q n new q pn Hpn) as (pn' & Hpn' & Hid' & _ & Hkids').
        exists pn'. split; [exact Hpn'|]. rewrite Hid', Hkids'.
        rewrite decide_True by reflexivity. split; [|apply in_or_app; right; left; reflexivity].
        exists (c + 1). split; [lia|].
        rewrite Hpid, <- (Hparts l) by lia.
        rewrite (proj1 (build_id_groups l parts)).
        rewrite build_id_S, Hcount. reflexivity.
      * split; simpl; [constructor|]. intros j [].
    + destruct (Htree i m Hm) as [Hnode [Hsort Hch]]. split.
      * unfold node_ok in *. rewrite Hpar, Hid.
        destruct (parent m) as [q0|]; [|exact Hnode].
        destruct Hnode as (Hq0 & pn0 & Hpn0 & Hext & Hin). split; [exact Hq0|].
        destruct (created_store_old _ q n new q0 pn0 Hpn0) as (pn' & Hpn' & Hid' & _ & Hkids').
        exists pn'. split; [exact Hpn'|]. rewrite Hid', Hkids'. split; [exact Hext|].
        destruct (decide (q0 = q)); [apply in_or_app; left|]; exact Hin.
      * assert (Hold : forall j, In j (children m) ->
                  j < n /\ exists m0, (alter (add_child n) q (heap p) ++ [new]) !! j = Some m0
                                     /\ parent m0 = Some i).
        { intros j Hj. destruct (Hch j Hj) as (mj & Hmj & Hpj).
          split; [rewrite Hn; eapply lookup_lt_Some; eauto|].
          destruct (created_store_old _ q n new j mj Hmj) as (mj' & Hmj' & _ & Hpj' & _).
          exists mj'. split; [exact Hmj'|congruence]. }
        unfold children_ok. rewrite Hkids.
        destruct (decide (i = q)) as [->|Hne].
        -- split.
           ++ apply sorted_snoc; [exact Hsort|]. intros j Hj. apply Hold, Hj.
           ++ intros j Hj. apply in_app_or in Hj as [Hj|[<-|[]]].
              ** apply Hold, Hj.
              ** exists new. split; [exact Hnew|reflexivity].
        -- split; [exact Hsort|]. intros j Hj. apply Hold, Hj.
  - unfold stack_ok. simpl. split; [exact Hroot|]. split.
    + rewrite Hst. simpl. eexists. reflexivity.
    + intros k q' Hk.
      assert (Hlen : List.length (take (S l) (parent_stack p)) = S l)
        by (rewrite length_take; lia).
      destruct (decide (k < S l)) as [Hlt|Hge].
      * rewrite lookup_app_l in Hk by lia.
        rewrite lookup_take_lt in Hk by lia.
        destruct (Hstack k q' Hk) as (m & Hm & Hid).
        destruct (created_store_old _ q n new q' m Hm) as (m' & Hm' & Hid' & _).
        exists m'. split; [exact Hm'|]. rewrite Hid', Hid. symmetry. apply Hparts. lia.
      * rewrite lookup_app_r in Hk by lia. rewrite Hlen in Hk.
        destruct (k - S l) as [|d] eqn:Hd; simpl in Hk; [|discriminate].
        inversion Hk; subst q'. exists new. split; [exact Hnew|].
        replace k with (S l) by lia. reflexivity.
Qed.

Lemma create_root_establishes p ttl meta p' n :
  heap p = [] -> root p = None ->
  _create_concept_node p 0 ttl meta = Ok (p', n) ->
  tree_ok (heap p') /\ stack_ok p'.
Proof.
  intros Hh Hr. unfold _create_concept_node.
  destruct ttl as [|a t]; [discriminate|]. rewrite Hr, Hh. simpl.
  intros H. inversion H; subst; clear H. simpl. split.
  - intros [|i] m Hi; simpl in Hi; [|discriminate].
    inversion Hi; subst. split.
    + split; reflexivity.
    + split; simpl; [constructor|]. intros j [].
  - split; [reflexivity|]. split; [eexists; reflexivity|].
    intros [|k] q Hk; simpl in Hk; [|discriminate].
    inversion Hk; subst. eexists. split; reflexivity.
Qed.

Lemma set_description_shape d n : same_shape n (set_description d n).
Proof. repeat split. Qed.

Lemma store_description_root p c pd : root (store_description p c pd) = root p.
Proof. unfold store_description. destruct c, pd; reflexivity. Qed.

Lemma store_description_ok p c pd :
  tree_ok (heap p) -> stack_ok p ->
  tree_ok (heap (store_description p c pd)) /\ stack_ok (store_description p c pd).
Proof.
  intros Ht Hs. unfold store_description.
  destruct c as [c|]; [|split; assumption].
  destruct pd as [|x pd]; [split; assumption|].
  split.
  - apply tree_ok_alter_shape; [apply set_description_shape|exact Ht].
  - eapply stack_ok_alter_shape; [apply set_description_shape|..|exact Hs];
      reflexivity.
Qed.

Lemma stack_ok_same_tree p p' : same_tree p p' -> stack_ok p -> stack_ok p'.
Proof.
  intros (Hh & Hr & Hs & Hp). unfold stack_ok. rewrite Hh, Hr, Hs, Hp. tauto.
Qed.

Lemma create_root_only_once p ttl meta p' n :
  stack_ok p -> _create_concept_node p 0 ttl meta = Ok (p', n) -> False.
Proof.
  intros (Hr & _). unfold _create_concept_node.
  destruct ttl; [discriminate|]. rewrite Hr. discriminate.
Qed.

Lemma parse_line_preserves sc raw sc' :
  scan_ok sc -> parse_line sc raw = Ok sc' -> scan_ok sc'.
Proof.
  intros Hok Hline.
  apply parse_line_cases in Hline
    as [[Hsame Hcur]
       |[(tok & g & ttl & meta & n & Hpat & Hcreate & Hcur)
        |(ttl & n & Hnone & Hcreate & Hcur)]].
  - destruct Hok as [[Hr Hempty]|[Ht Hs]].
    + left. destruct Hsame as (Hh & Hr' & _). rewrite Hr', Hh, Hcur. auto.
    + right. split; [|eapply stack_ok_same_tree; eauto].
      destruct Hsame as (-> & _). exact Ht.
  - apply concept_pattern_level in Hpat.
    destruct (level_of tok) as [|l]; [lia|].
    destruct Hok as [[Hr Hempty]|[Ht Hs]].
    + left. split; [|rewrite Hcur; discriminate].
      apply create_level_inv in Hcreate as (_ & _ & c & _ & _ & ->). simpl.
      rewrite store_description_root. exact Hr.
    + right. eapply create_preserves; [..|exact Hcreate];
        apply store_description_ok; try exact Ht;
        (eapply stack_ok_same_tree; [|exact Hs]); repeat split.
  - destruct Hok as [[Hr Hempty]|[Ht Hs]].
    + right. eapply create_root_establishes; [..|exact Hcreate].
      * apply Hempty, Hnone.
      * exact Hr.
    + exfalso. eapply create_root_only_once; [|exact Hcreate].
      eapply stack_ok_same_tree; [|exact Hs]. repeat split.
Qed.

Lemma parse_lines_preserves lines sc sc' :
  scan_ok sc -> parse_lines sc lines = Ok sc' -> scan_ok sc'.
Proof.
  revert sc; induction lines as [|l lines IH]; intros sc Hok H; simpl in H.
  - inversion H; subst. exact Hok.
  - destruct (parse_line sc l) as [sc1|e] eqn:Hl; [|discriminate].
    eapply IH; [|exact H]. eapply parse_line_preserves; eauto.
Qed.

(** A parse that succeeds returns the first node it made, and the store
    it leaves is a well-formed tree. *)
Lemma parse_tree_ok parser lines p r :
  parse parser lines = Ok (p, r) ->
  r = 0 /\ tree_ok (heap p) /\ stack_ok p.
Proof.
  unfold parse. intros H.
  destruct (parse_lines _ lines) as [sc|e] eqn:Hlines; [|discriminate].
  apply parse_lines_preserves in Hlines; [|left; split; reflexivity].
  destruct (root (store_description _ _ _)) as [r0|] eqn:Hroot; [|discriminate].
  inversion H; subst; clear H.
  rewrite store_description_root in Hroot.
  destruct Hlines as [[Hr _]|[Ht Hs]]; [congruence|].
  destruct (store_description_ok (self sc) (current_concept sc)
              (pending_description_lines sc) Ht Hs) as [Ht' Hs'].
  split; [|split; assumption].
  destruct Hs as (Hr & _). congruence.
Qed.

(** ** Trees, search and export *)

Lemma Tree_ind_kids (P : Tree -> Prop) :
  (forall d ks, Forall P ks -> P (Node d ks)) -> forall t, P t.
Proof.
  intros H. fix IH 1. intros [d ks]. apply H.
  induction ks as [|k ks IHks]; constructor; [apply IH|exact IHks].
Qed.

(** *** Search *)



Lemma lower_char_idem c : Py.lower_char (Py.lower_char c) = Py.lower_char c.
Proof.
  destruct c as [[] [] [] [] [] [] [] []]; reflexivity.
Qed.

Lemma lower_idem s : Py.lower (Py.lower s) = Py.lower s.
Proof. induction s; simpl; [reflexivity|]. rewrite lower_char_idem. congruence. Qed.


Lemma search_recursive_filter query t acc :
  Navigator.search_recursive query t acc
  = acc ++ List.filter (Navigator.node_matches query) (preorder t).
Proof.
  revert acc. induction t as [d ks IH] using Tree_ind_kids. intros acc.
  cbn [Navigator.search_recursive preorder List.filter].
  set (acc1 := if Navigator.node_matches query (Node d ks) then acc ++ [Node d ks] else acc).
  assert (Hacc : acc ++ (if Navigator.node_matches query (Node d ks)
                         then Node d ks :: List.filter (Navigator.node_matches query) (flat_map preorder ks)
                         else List.filter (Navigator.node_matches query) (flat_map preorder ks))
                 = acc1 ++ List.filter (Navigator.node_matches query) (flat_map preorder ks)).
  { unfold acc1. destruct (Navigator.node_matches query (Node d ks)); [|reflexivity].
    rewrite <- app_assoc. reflexivity. }
  rewrite Hacc. clear Hacc. generalize acc1. clear acc acc1.
  induction IH as [|k ks Hk _ IHks]; intros acc; simpl.
  - rewrite app_nil_r. reflexivity.
  - rewrite IHks, Hk, List.filter_app, app_assoc. reflexivity.
Qed.


Lemma for_enumerate_acc (f : nat -> Tree -> list string -> list string) ks :
  Forall (fun c => forall i l, f i c l = l ++ f i c []) ks ->
  forall i l, Renderer.for_enumerate f i ks l = l ++ Renderer.for_enumerate f i ks [].
Proof.
  induction 1 as [|c ks Hc _ IH]; intros i l; simpl.
  - rewrite app_nil_r. reflexivity.
  - rewrite IH, (IH _ (f i c [])), Hc, app_assoc. reflexivity.
Qed.

Lemma build_ascii_lines_acc t :
  forall lines prefix is_last en,
    Renderer._build_ascii_lines t lines prefix is_last en
    = lines ++ Renderer._build_ascii_lines t [] prefix is_last en.
Proof.
  induction t as [d ks IH] using Tree_ind_kids. intros lines prefix is_last en.
  cbn [Renderer._build_ascii_lines]. apply for_enumerate_acc.
  eapply Forall_impl; [exact IH|]. clear. intros c Hc i l. cbv zeta.
  destruct (_ && _).
  - rewrite Hc, (Hc ([] ++ _)). rewrite app_nil_l, app_assoc. reflexivity.
  - reflexivity.
Qed.

(** The export of a node with two children: each child's lines in turn. *)
Lemma build_ascii_lines_two d a b lines prefix is_last en :
  Renderer._build_ascii_lines (Node d [a; b]) lines prefix is_last en
  = lines ++ subtree_lines prefix false en a ++ subtree_lines prefix true en b.
Proof.
  change (Renderer._build_ascii_lines (Node d [a; b]) lines prefix is_last en)
    with (let l1 := lines ++ [Renderer.child_line prefix "├── " en a] in
          let l2 := if Renderer.shown_expanded en a && Renderer.has_children a
                    then Renderer._build_ascii_lines a l1 (prefix ++ "│   ")%string false en
                    else l1 in
          let l3 := l2 ++ [Renderer.child_line prefix "└── " en b] in
          if Renderer.shown_expanded en b && Renderer.has_children b
          then Renderer._build_ascii_lines b l3 (prefix ++ "    ")%string true en
          else l3).
  cbv zeta. unfold subtree_lines.
  destruct (Renderer.shown_expanded en a && _), (Renderer.shown_expanded en b && _);
    rewrite ?(build_ascii_lines_acc b (_ ++ _)), ?(build_ascii_lines_acc a (_ ++ _));
    simpl; rewrite <- ?app_assoc; simpl; reflexivity.
Qed.

(** A collapsed child with children contributes its marked line only. *)
Lemma subtree_lines_collapsed dc kc prefix is_child_last en :
  expanded dc = false -> node_id dc ∉ en -> kc <> [] ->
  subtree_lines prefix is_child_last en (Node dc kc)
  = [(prefix ++ (if is_child_last then "└── " else "├── ")
      ++ node_id dc ++ " " ++ title dc ++ " [+]")%string].
Proof.
  intros Hexp Hin Hk.
  assert (Hs : Renderer.shown_expanded en (Node dc kc) = false).
  { unfold Renderer.shown_expanded. simpl.
    rewrite Hexp, bool_decide_eq_false_2 by exact Hin. reflexivity. }
  unfold subtree_lines, Renderer.child_line. rewrite Hs.
  destruct kc; [congruence|]. simpl. rewrite !append_assoc. reflexivity.
Qed.

(** C9.  In the plain-text export of a root with two children, a child
    that is collapsed and has children is written as its line followed by
    the collapse marker, and the export does not depend on what is below
    it: the text is the title of the root, the marked line, and the lines
    of the other child.  Stated for the first and for the second child;
    the collapsed child must not be named in [expanded_nodes], which is
    empty when the export is called without it. *)
Theorem C9_collapsed_child_export
  (d da db : TikiNode) (ka kb : list Tree) (en : option (gset string)) :
  (expanded da = false -> node_id da ∉ default ∅ en -> ka <> [] ->
   Renderer.export_ascii_tree (Node d [Node da ka; Node db kb]) en
   = Py.join_lines
       (title d
        :: ("├── " ++ node_id da ++ " " ++ title da ++ " [+]")%string
        :: subtree_lines "" true (default ∅ en) (Node db kb)))
  /\ (expanded db = false -> node_id db ∉ default ∅ en -> kb <> [] ->
      Renderer.export_ascii_tree (Node d [Node da ka; Node db kb]) en
      = Py.join_lines
          (title d
           :: subtree_lines "" false (default ∅ en) (Node da ka)
           ++ [("└── " ++ node_id db ++ " " ++ title db ++ " [+]")%string])).
Proof.
  split; intros Hexp Hin Hk; unfold Renderer.export_ascii_tree; f_equal;
    rewrite build_ascii_lines_two; cbn [data_of].
  - rewrite (subtree_lines_collapsed da ka) by assumption. reflexivity.
  - rewrite (subtree_lines_collapsed db kb) by assumption. reflexivity.
Qed.

Lemma C9_collapsed_child_export_witness :
  let root :=
    Node (mkTikiNode "" "Spec" "" true [] None [1; 3])
      [Node (mkTikiNode "*1" "Alpha" "" false [] (Some 0) [2])
         [Node (mkTikiNode "*1**1" "Hidden" "" true [] (Some 1) []) []];
       Node (mkTikiNode "*2" "Beta" "" true [] (Some 0) [4])
         [Node (mkTikiNode "*2**1" "Shown" "" true [] (Some 3) []) []]] in
  Renderer.export_ascii_tree root None
  = Py.join_lines ["Spec"; "├── *1 Alpha [+]"; "└── *2 Beta"; "    └── *2**1 Shown"].
Proof.
  cbv zeta. eapply eq_trans.
  - apply (proj1 (C9_collapsed_child_export _ _ _ _ _ None));
      [reflexivity | simpl; set_solver | discriminate].
  - vm_compute. reflexivity.
Defined.

(** ** The root and the tree of a parse *)

Lemma tree_ok_root_parent h n :
  tree_ok h -> h !! 0 = Some n -> parent n = None /\ node_id n = "".
Proof.
  intros Ht Hn. destruct (Ht 0 n Hn) as [Hnode _]. unfold node_ok in Hnode.
  destruct (parent n) as [q|]; [lia|]. tauto.
Qed.

Lemma tree_ok_parent h i n :
  tree_ok h -> h !! i = Some n -> i <> 0 ->
  exists q pn, parent n = Some q /\ q < i /\ h !! q = Some pn
               /\ extends_id (node_id pn) (node_id n) /\ In i (children pn).
Proof.
  intros Ht Hn Hi. destruct (Ht i n Hn) as [Hnode _]. unfold node_ok in Hnode.
  destruct (parent n) as [q|]; [|lia].
  destruct Hnode as (Hq & pn & Hpn & Hext & Hin). exists q, pn. auto.
Qed.



(** *** What a creation and a line leave alone *)

Lemma create_keeps p level ttl meta p' n :
  _create_concept_node p level ttl meta = Ok (p', n) ->
  frontmatter p' = frontmatter p /\ line_number p' = line_number p
  /\ in_frontmatter p' = in_frontmatter p
  /\ _frontmatter_lines p' = _frontmatter_lines p.
Proof.
  destruct level as [|l].
  - unfold _create_concept_node. destruct ttl; [discriminate|].
    destruct (root p); [discriminate|]. simpl.
    intros H. inversion H; subst. repeat split.
  - intros H. apply create_level_inv in H as (_ & _ & c & _ & _ & ->).
    repeat split.
Qed.

Lemma store_description_keeps p c pd :
  frontmatter (store_description p c pd) = frontmatter p
  /\ line_number (store_description p c pd) = line_number p.
Proof. unfold store_description. destruct c, pd; split; reflexivity. Qed.

Lemma parse_line_keeps sc raw sc' :
  parse_line sc raw = Ok sc' ->
  frontmatter (self sc') = frontmatter (self sc)
  /\ line_number (self sc') = line_number (self sc) + 1.
Proof.
  unfold parse_line.
  set (p := with_line_number (line_number (self sc) + 1) (self sc)).
  set (line := Py.rstrip raw). intros H.
  destruct (frontmatter_pattern line
            && (negb (in_frontmatter p) && (line_number p <=? 10)%nat)).
  { inversion H; subst; split; reflexivity. }
  destruct (frontmatter_pattern line && in_frontmatter p).
  { inversion H; subst; split; reflexivity. }
  destruct (in_frontmatter p).
  { inversion H; subst; split; reflexivity. }
  destruct (code_block_pattern line) as [g|].
  { destruct (in_code_block p); inversion H; subst; split; reflexivity. }
  destruct (Py.strip line).
  { inversion H; subst; split; reflexivity. }
  destruct (concept_pattern line) as [[tok group2]|].
  - destruct (strip_metadata (Py.strip group2)) as [ttl meta].
    destruct (_create_concept_node _ (level_of tok) ttl meta) as [[p2 n]|e] eqn:E.
    + inversion H; subst. apply create_keeps in E as (E1 & E2 & _).
      simpl. rewrite E1, E2.
      destruct (store_description_keeps p (current_concept sc)
                  (pending_description_lines sc)) as [-> ->].
      split; reflexivity.
    + destruct e; discriminate.
  - destruct (current_concept sc) as [c|].
    + inversion H; subst; split; reflexivity.
    + destruct (negb (Py.startswith line "*")); [|discriminate].
      destruct (_create_concept_node p 0 _ []) as [[p2 n]|e] eqn:E; [|discriminate].
      inversion H; subst. apply create_keeps in E as (E1 & E2 & _).
      simpl. rewrite E1, E2. split; reflexivity.
Qed.

Lemma parse_lines_keeps lines sc sc' :
  parse_lines sc lines = Ok sc' ->
  frontmatter (self sc') = frontmatter (self sc)
  /\ line_number (self sc') = line_number (self sc) + List.length lines.
Proof.
  revert sc; induction lines as [|l lines IH]; intros sc H; simpl in H.
  - inversion H; subst. split; [reflexivity|simpl; lia].
  - destruct (parse_line sc l) as [sc1|e] eqn:Hl; [|discriminate].
    apply parse_line_keeps in Hl as [Hf Hn]. apply IH in H as [Hf' Hn'].
    rewrite Hf', Hn', Hf, Hn. split; [reflexivity|simpl; lia].
Qed.

(** C6.  Claimed: the parse result of the frontmatter lines is exposed as
    document-level metadata.  The code stores the raw lines in
    [_frontmatter_lines] and never parses them: after every parse that
    succeeds, the [frontmatter] mapping of the parser is empty. *)
Theorem C6_frontmatter_left_empty parser lines p r :
  parse parser lines = Ok (p, r) -> frontmatter p = [].
Proof.
  unfold parse.
  destruct (parse_lines _ lines) as [sc|e] eqn:Hlines; [|discriminate].
  destruct (root _); [|discriminate]. intros H. inversion H; subst.
  apply parse_lines_keeps in Hlines as [Hf _].
  rewrite (proj1 (store_description_keeps _ _ _)), Hf. reflexivity.
Qed.

Lemma C6_frontmatter_left_empty_witness :
  exists p,
    parse TikiParser_new ["---"; "title: Demo"; "---"; "Root"] = Ok (p, 0)
    /\ _frontmatter_lines p = Some ["title: Demo"]
    /\ List.length (heap p) = 1
    /\ frontmatter p = [].
Proof.
  eexists. split; [vm_compute; reflexivity|].
  split; [reflexivity|]. split; [reflexivity|].
  apply (C6_frontmatter_left_empty TikiParser_new
           ["---"; "title: Demo"; "---"; "Root"] _ 0).
  vm_compute. reflexivity.
Defined.

(** C10.  Claimed: in a parsed tree the depth of a node below the root is
    the depth of its parent plus 1.  In the document below the node of
    the fourth level has depth 5 and its parent has depth 3, although its
    id extends the id of its parent by one group. *)
Theorem C10_fourth_level_depth :
  exists p,
    parse TikiParser_new ["Root"; "* A"; "*-* B"; "*-*-* C"; "*-*-*-* D"]
    = Ok (p, 0)
    /\ map (fun n => (node_id n, parent n, depth n, marker_groups (node_id n)))
           (heap p)
       = [("", None, 0, 0); ("*1", Some 0, 1, 1); ("*1**1", Some 1, 2, 2);
          ("*1**1***1", Some 2, 3, 3); ("*1**1***1****1", Some 3, 5, 4)].
Proof. eexists. split; vm_compute; reflexivity. Qed.

(** *** The tree of a successful parse *)

Lemma extends_id_groups pid cid :
  ends_in_star false pid = false ->
  extends_id pid cid ->
  marker_groups cid = marker_groups pid + 1 /\ ends_in_star false cid = false.
Proof.
  intros Hend (c & _ & ->). unfold marker_groups. split.
  - rewrite asterisk_runs_app, Hend, asterisk_runs_app.
    replace (asterisk_runs false pid + 1) with (S (asterisk_runs false pid)) by lia.
    rewrite stars_end. simpl. rewrite stars_runs.
    rewrite (digits_no_star true (Py.str_of_nat c)) by apply str_of_nat_digits.
    lia.
  - rewrite !ends_in_star_app.
    apply digits_end; [apply str_of_nat_nonempty|apply str_of_nat_digits].
Qed.

Lemma tree_ok_id_end h i n :
  tree_ok h -> h !! i = Some n -> ends_in_star false (node_id n) = false.
Proof.
  intros Ht Hn. destruct (Ht i n Hn) as [Hnode _]. unfold node_ok in Hnode.
  destruct (parent n) as [q|].
  - destruct Hnode as (_ & pn & _ & (c & _ & ->) & _).
    rewrite !ends_in_star_app.
    apply digits_end; [apply str_of_nat_nonempty|apply str_of_nat_digits].
  - destruct Hnode as [_ ->]. reflexivity.
Qed.

(** X1.  In the tree of a parse that succeeds, the id of every node below the
    root is the id of its parent followed by one more run of asterisks
    and a counter of at least 1, so it has one asterisk group more; the
    child list of every node is in creation order and names exactly the
    nodes whose parent it is. *)
Theorem parse_ids_extend_parent parser lines p r :
  parse parser lines = Ok (p, r) ->
  forall i n, heap p !! i = Some n ->
    (i <> r ->
     exists q pn,
       parent n = Some q /\ q < i /\ heap p !! q = Some pn
       /\ extends_id (node_id pn) (node_id n)
       /\ marker_groups (node_id n) = marker_groups (node_id pn) + 1)
    /\ StronglySorted lt (children n)
    /\ (forall j, In j (children n)
                  <-> exists m, heap p !! j = Some m /\ parent m = Some i).
Proof.
  intros Hparse i n Hn.
  apply parse_tree_ok in Hparse as (-> & Ht & _).
  split; [|split].
  - intros Hi.
    destruct (tree_ok_parent _ i n Ht Hn Hi) as (q & pn & Hp & Hq & Hpn & Hext & _).
    exists q, pn. repeat split; try assumption.
    apply extends_id_groups; [|exact Hext]. eapply tree_ok_id_end; eauto.
  - apply (Ht i n Hn).
  - intros j. split.
    + apply (Ht i n Hn).
    + intros (m & Hm & Hpar). destruct (Ht j m Hm) as [Hnode _].
      unfold node_ok in Hnode. rewrite Hpar in Hnode.
      destruct Hnode as (_ & pn & Hpn & _ & Hin). congruence.
Qed.

Lemma parse_ids_extend_parent_witness :
  exists p,
    parse TikiParser_new ["Root"; "* A"; "*-* B"; "* C"] = Ok (p, 0)
    /\ forall i n, heap p !! i = Some n ->
         (i <> 0 ->
          exists q pn,
            parent n = Some q /\ q < i /\ heap p !! q = Some pn
            /\ extends_id (node_id pn) (node_id n)
            /\ marker_groups (node_id n) = marker_groups (node_id pn) + 1)
         /\ StronglySorted lt (children n)
         /\ (forall j, In j (children n)
                       <-> exists m, heap p !! j = Some m /\ parent m = Some i).
Proof.
  eexists. split; [vm_compute; reflexivity|].
  apply (parse_ids_extend_parent TikiParser_new ["Root"; "* A"; "*-* B"; "* C"]).
  vm_compute. reflexivity.
Defined.

(** *** Unfolding the store into a tree *)

Lemma tree_ok_child_later h i n j :
  tree_ok h -> h !! i = Some n -> In j (children n) ->
  i < j /\ j < List.length h.
Proof.
  intros Ht Hn Hj. destruct (Ht i n Hn) as [_ [_ Hkids]].
  destruct (Hkids j Hj) as (m & Hm & Hpar).
  split; [|eapply lookup_lt_Some; eauto].
  destruct (Ht j m Hm) as [Hnode _]. unfold node_ok in Hnode.
  rewrite Hpar in Hnode. tauto.
Qed.

Lemma tree_of_total h :
  tree_ok h ->
  forall fuel i, i < List.length h -> List.length h - i <= fuel ->
    exists t, tree_of fuel h i = Some t /\ h !! i = Some (data_of t).
Proof.
  intros Ht fuel. induction fuel as [|k IH]; intros i Hi Hfuel; [lia|].
  destruct (lookup_lt_is_Some_2 h i Hi) as [d Hd].
  cbn [tree_of]. rewrite Hd.
  assert (Hkids : is_Some (mapM (tree_of k h) (children d))).
  { apply mapM_is_Some. apply Forall_forall. intros j Hj.
    apply list_elem_of_In in Hj.
    destruct (tree_ok_child_later h i d j Ht Hd Hj) as [Hlt Hlen].
    destruct (IH j Hlen) as (t & Heq & _); [lia|]. exists t. exact Heq. }
  destruct Hkids as [ks ->]. exists (Node d ks). split; reflexivity.
Qed.

(** X6.  The node a successful parse returns unfolds into a tree: the walk
    over the store, bounded by the number of nodes, reaches every child
    list to its end. *)
Theorem parse_tree_unfolds parser lines p r :
  parse parser lines = Ok (p, r) ->
  exists t, tree_of (List.length (heap p)) (heap p) r = Some t
            /\ heap p !! r = Some (data_of t)
            /\ node_id (data_of t) = "" /\ parent (data_of t) = None.
Proof.
  intros Hparse. apply parse_tree_ok in Hparse as (-> & Ht & Hs).
  destruct Hs as (_ & [st Hst] & Hstack).
  destruct (Hstack 0 0) as (n0 & Hn0 & _); [rewrite Hst; reflexivity|].
  destruct (tree_of_total _ Ht (List.length (heap p)) 0) as (t & Htree & Hdata);
    [eapply lookup_lt_Some; eauto|lia|].
  exists t. split; [exact Htree|]. split; [exact Hdata|].
  destruct (tree_ok_root_parent _ _ Ht Hdata) as [Hp Hid]. split; assumption.
Qed.

Lemma parse_tree_unfolds_witness :
  exists t,
    tree_of 3
      [mkTikiNode "" "Root" "" true [] None [1];
       mkTikiNode "*1" "A" "" true [] (Some 0) [2];
       mkTikiNode "*1**1" "B" "" true [] (Some 1) []] 0 = Some t
    /\ title (data_of t) = "Root".
Proof.
  destruct (parse_tree_unfolds TikiParser_new ["Root"; "* A"; "*-* B"]
              (mkTikiParser
                 [mkTikiNode "" "Root" "" true [] None [1];
                  mkTikiNode "*1" "A" "" true [] (Some 0) [2];
                  mkTikiNode "*1**1" "B" "" true [] (Some 1) []]
                 (Some 0) [0; 1; 2] [1; 1; 0; 0; 0; 0; 0; 0; 0; 0] 3 [] false
                 false None None) 0 eq_refl)
    as (t & Htree & Hdata & _).
  exists t. split; [exact Htree|].
  simpl in Hdata. inversion Hdata. reflexivity.
Defined.

(** ** Marker tokens and empty titles *)

Lemma count_groups_stars k : count_groups true (Py.stars k) = 0.
Proof. induction k; simpl; auto. Qed.

Lemma filter_markers_stars tok :
  Py.all_chars (fun c => Ascii.eqb c "*" || Py.isalnum c) tok = true ->
  exists k, Py.filter_chars (fun c => negb (Py.isalnum c)) tok = Py.stars k.
Proof.
  induction tok as [|c tok IH]; intros H; [exists 0; reflexivity|].
  simpl in H. apply andb_prop in H as [Hc Htok].
  destruct (IH Htok) as [k Hk]. cbn [Py.filter_chars]. rewrite Hk.
  destruct (Ascii.eqb_spec c "*") as [->|Hne].
  - exists (S k). reflexivity.
  - simpl in Hc. rewrite Hc. exists k. reflexivity.
Qed.

(** X2.  A marker token made of asterisks, letters and digits only has level
    1, however many asterisk runs it has. *)
Theorem level_of_alphanumeric_token tok :
  Py.startswith tok "*" = true ->
  Py.all_chars (fun c => Ascii.eqb c "*" || Py.isalnum c) tok = true ->
  level_of tok = 1.
Proof.
  intros Hs Hall. unfold level_of. rewrite Hs.
  destruct (startswith_star _ Hs) as [r ->].
  simpl in Hall.
  destruct (filter_markers_stars r Hall) as [k Hk].
  change (Py.filter_chars (fun c => negb (Py.isalnum c)) (String "*" r))
    with (String "*" (Py.filter_chars (fun c => negb (Py.isalnum c)) r)).
  rewrite Hk. simpl. rewrite count_groups_stars. reflexivity.
Qed.

Lemma level_of_alphanumeric_token_witness :
  level_of "*1**2***3" = 1 /\ marker_groups "*1**2***3" = 3.
Proof.
  split; [|reflexivity].
  apply level_of_alphanumeric_token; reflexivity.
Defined.

(** *** Lines that start with an asterisk *)

Lemma rstrip_cons_nonspace c r :
  Py.isspace c = false -> exists r', Py.rstrip (String c r) = String c r'.
Proof.
  intros Hc. cbn [Py.rstrip]. rewrite Hc.
  destruct (Py.rstrip r); eexists; reflexivity.
Qed.

Lemma star_line_is_concept_text r :
  frontmatter_pattern (String "*" r) = false
  /\ code_block_pattern (String "*" r) = None
  /\ Py.strip (String "*" r) <> "".
Proof.
  split; [reflexivity|]. split; [reflexivity|].
  unfold Py.strip, Py.lstrip. cbn [Py.drop_while].
  change (Py.isspace "*") with false. cbn iota.
  destruct (rstrip_cons_nonspace "*" r eq_refl) as [r' ->]. discriminate.
Qed.

(** A concept line whose title is empty once the annotations are taken
    out: the line fails with its own number. *)
Lemma parse_line_empty_title sc raw tok group2 :
  in_frontmatter (self sc) = false ->
  concept_pattern (Py.rstrip raw) = Some (tok, group2) ->
  fst (strip_metadata (Py.strip group2)) = "" ->
  parse_line sc raw
  = Raise (TikiParseError "Concept title cannot be empty"
             (line_number (self sc) + 1) (Py.rstrip raw)).
Proof.
  intros Hfm Hpat Httl. unfold parse_line.
  set (line := Py.rstrip raw) in *.
  assert (Hstar : exists r, line = String "*" r).
  { unfold concept_pattern in Hpat.
    destruct (Py.startswith line "*") eqn:Hs; [|discriminate].
    apply startswith_star, Hs. }
  destruct Hstar as [r Hr].
  destruct (star_line_is_concept_text r) as (Hf & Hc & Hs).
  rewrite <- Hr in Hf, Hc, Hs. rewrite Hf. cbn [andb].
  change (in_frontmatter (with_line_number _ (self sc)))
    with (in_frontmatter (self sc)).
  rewrite Hfm, Hc.
  destruct (Py.strip line) eqn:Hstrip; [congruence|].
  rewrite Hpat.
  destruct (strip_metadata (Py.strip group2)) as [ttl meta]. simpl in Httl.
  subst ttl. unfold _create_concept_node.
  rewrite (proj2 (store_description_keeps _ _ _)). reflexivity.
Qed.

Lemma parse_lines_app pre post sc :
  parse_lines sc (pre ++ post)
  = match parse_lines sc pre with
    | Ok sc' => parse_lines sc' post
    | Raise e => Raise e
    end.
Proof.
  revert sc; induction pre as [|l pre IH]; intros sc; simpl; [reflexivity|].
  destruct (parse_line sc l); [apply IH|reflexivity].
Qed.

(** X3.  A line that matches the concept pattern and whose title is empty
    once the annotations are taken out makes the parse fail with the
    error of the empty title, the number of that line (counted from 1) and
    its text. *)
Theorem empty_title_fails_on_its_line parser pre raw post sc tok group2 :
  parse_lines (mkScan (reset parser) None []) pre = Ok sc ->
  in_frontmatter (self sc) = false ->
  concept_pattern (Py.rstrip raw) = Some (tok, group2) ->
  fst (strip_metadata (Py.strip group2)) = "" ->
  parse parser (pre ++ raw :: post)
  = Raise (TikiParseError "Concept title cannot be empty"
             (List.length pre + 1) (Py.rstrip raw)).
Proof.
  intros Hpre Hfm Hpat Httl. unfold parse.
  rewrite parse_lines_app, Hpre. cbn [parse_lines].
  rewrite (parse_line_empty_title sc raw tok group2 Hfm Hpat Httl).
  apply parse_lines_keeps in Hpre as [_ ->]. reflexivity.
Qed.

Lemma empty_title_fails_on_its_line_witness :
  parse TikiParser_new (["Root"; "* First"] ++ "** [draft]  " :: ["* Last"])
  = Raise (TikiParseError "Concept title cannot be empty" 3 "** [draft]").
Proof.
  eapply (empty_title_fails_on_its_line TikiParser_new ["Root"; "* First"]
            "** [draft]  " ["* Last"]);
    vm_compute; reflexivity.
Defined.

(** *** Frontmatter *)

Lemma store_description_in_frontmatter p c pd :
  in_frontmatter (store_description p c pd) = in_frontmatter p.
Proof. unfold store_description. destruct c, pd; reflexivity. Qed.

(** X4.  The frontmatter flag after a line, and what a line read inside
    the frontmatter does: it creates no node, and unless it closes the
    block it is stored in [_frontmatter_lines]. *)
Theorem frontmatter_state sc raw sc' :
  parse_line sc raw = Ok sc' ->
  in_frontmatter (self sc')
  = (if frontmatter_pattern (Py.rstrip raw)
     then (if in_frontmatter (self sc) then false
           else (line_number (self sc) + 1 <=? 10)%nat)
     else in_frontmatter (self sc))
  /\ (in_frontmatter (self sc) = true ->
      same_tree (self sc) (self sc')
      /\ current_concept sc' = current_concept sc
      /\ pending_description_lines sc' = pending_description_lines sc
      /\ (frontmatter_pattern (Py.rstrip raw) = false ->
          _frontmatter_lines (self sc')
          = Some (default [] (_frontmatter_lines (self sc)) ++ [Py.rstrip raw]))).
Proof.
  unfold parse_line.
  set (p := with_line_number (line_number (self sc) + 1) (self sc)).
  set (line := Py.rstrip raw).
  change (in_frontmatter p) with (in_frontmatter (self sc)).
  change (line_number p) with (line_number (self sc) + 1).
  destruct (frontmatter_pattern line) eqn:Hd;
    destruct (in_frontmatter (self sc)) eqn:Hin; cbn [andb negb].
  - intros H; inversion H; subst. simpl.
    split; [reflexivity|]. intros _. repeat split. discriminate.
  - destruct (line_number (self sc) + 1 <=? 10)%nat eqn:Hten.
    + intros H; inversion H; subst. simpl. split; [reflexivity|discriminate].
    + intros H. split; [|discriminate].
      destruct (code_block_pattern line) as [g|].
      { destruct (in_code_block p); inversion H; subst; exact Hin. }
      destruct (Py.strip line).
      { inversion H; subst; exact Hin. }
      destruct (concept_pattern line) as [[tok group2]|].
      * destruct (strip_metadata (Py.strip group2)) as [ttl meta].
        destruct (_create_concept_node _ (level_of tok) ttl meta)
          as [[p2 n]|e] eqn:E; [|destruct e; discriminate].
        inversion H; subst. apply create_keeps in E as (_ & _ & E & _).
        simpl. rewrite E, store_description_in_frontmatter. exact Hin.
      * destruct (current_concept sc) as [c|].
        { inversion H; subst; exact Hin. }
        destruct (negb (Py.startswith line "*")); [|discriminate].
        destruct (_create_concept_node p 0 _ []) as [[p2 n]|e] eqn:E; [|discriminate].
        inversion H; subst. apply create_keeps in E as (_ & _ & E & _).
        simpl. rewrite E. exact Hin.
  - intros H; inversion H; subst. simpl.
    split; [exact Hin|]. intros _. repeat split.
  - intros H. split; [|discriminate].
    destruct (code_block_pattern line) as [g|].
    { destruct (in_code_block p); inversion H; subst; exact Hin. }
    destruct (Py.strip line).
    { inversion H; subst; exact Hin. }
    destruct (concept_pattern line) as [[tok group2]|].
    + destruct (strip_metadata (Py.strip group2)) as [ttl meta].
      destruct (_create_concept_node _ (level_of tok) ttl meta)
        as [[p2 n]|e] eqn:E; [|destruct e; discriminate].
      inversion H; subst. apply create_keeps in E as (_ & _ & E & _).
      simpl. rewrite E, store_description_in_frontmatter. exact Hin.
    + destruct (current_concept sc) as [c|].
      { inversion H; subst; exact Hin. }
      destruct (negb (Py.startswith line "*")); [|discriminate].
      destruct (_create_concept_node p 0 _ []) as [[p2 n]|e] eqn:E; [|discriminate].
      inversion H; subst. apply create_keeps in E as (_ & _ & E & _).
      simpl. rewrite E. exact Hin.
Qed.

Lemma frontmatter_state_witness :
  let sc := mkScan (mkTikiParser [] None [] (replicate 10 0) 1 [] true false
                      None None) None [] in
  exists sc',
    parse_line sc "title: Demo  " = Ok sc'
    /\ in_frontmatter (self sc') = true
    /\ heap (self sc') = []
    /\ _frontmatter_lines (self sc') = Some ["title: Demo"].
Proof.
  cbv zeta. eexists. split; [vm_compute; reflexivity|].
  match goal with
  | |- context [self ?s] =>
      pose proof (frontmatter_state
        (mkScan (mkTikiParser [] None [] (replicate 10 0) 1 [] true false
                   None None) None [])
        "title: Demo  " s ltac:(vm_compute; reflexivity)) as [H1 H2]
  end.
  split; [exact H1|].
  destruct (H2 eq_refl) as ((Hh & _) & _ & _ & Hl).
  split; [exact Hh|exact (Hl eq_refl)].
Defined.

(** *** Code fences *)

Lemma fence_is_no_delimiter line group1 :
  code_block_pattern line = Some group1 -> frontmatter_pattern line = false.
Proof.
  destruct line as [|c1 line]; [discriminate|].
  destruct c1 as [[] [] [] [] [] [] [] []]; try discriminate.
  intros _. reflexivity.
Qed.

(** X5.  A fence line outside the frontmatter toggles the flag, creates
    no node, and is kept as description text when a concept is open. *)
Theorem fence_line_kept sc raw group1 :
  in_frontmatter (self sc) = false ->
  code_block_pattern (Py.rstrip raw) = Some group1 ->
  exists p',
    parse_line sc raw
    = Ok (mkScan p' (current_concept sc)
            (match current_concept sc with
             | Some _ => pending_description_lines sc ++ [Py.rstrip raw]
             | None => pending_description_lines sc
             end))
    /\ in_code_block p' = negb (in_code_block (self sc))
    /\ same_tree (self sc) p'.
Proof.
  intros Hin Hfence. unfold parse_line.
  set (p := with_line_number (line_number (self sc) + 1) (self sc)).
  set (line := Py.rstrip raw) in *.
  assert (Hd : frontmatter_pattern line = false).
  { eapply fence_is_no_delimiter. exact Hfence. }
  rewrite Hd. cbn [andb].
  change (in_frontmatter p) with (in_frontmatter (self sc)).
  rewrite Hin, Hfence.
  eexists. split; [reflexivity|].
  change (in_code_block p) with (in_code_block (self sc)).
  destruct (in_code_block (self sc)); split; try reflexivity; repeat split.
Qed.

Lemma fence_line_kept_witness :
  let sc := mkScan (mkTikiParser [mkTikiNode "" "Root" "" true [] None []]
                      (Some 0) [0] (replicate 10 0) 1 [] false false None None)
              (Some 0) [] in
  exists p',
    parse_line sc "```python " = Ok (mkScan p' (Some 0) ["```python"])
    /\ in_code_block p' = true
    /\ heap p' = heap (self sc).
Proof.
  cbv zeta.
  destruct (fence_line_kept
    (mkScan (mkTikiParser [mkTikiNode "" "Root" "" true [] None []]
               (Some 0) [0] (replicate 10 0) 1 [] false false None None)
       (Some 0) []) "```python " (Some "python") eq_refl eq_refl)
    as (p' & Hline & Hflag & Hsame & _).
  exists p'. split; [exact Hline|]. split; [exact Hflag|exact Hsame].
Defined.

(** ** Documents evaluated *)

(** C7.  Claimed: [depth] is the number of asterisk groups of the id.
    The property counts the non-overlapping pairs of asterisks and adds
    one.  This is the number of groups for the ids of one, two and three
    groups; the run of four asterisks holds two pairs, so the id of four
    groups has depth 5. *)
Theorem C7_depth_by_star_pairs :
  depth (mkTikiNode "" "Root" "" true [] None []) = 0
  /\ depth (mkTikiNode "*1" "a" "" true [] (Some 0) []) = 1
  /\ depth (mkTikiNode "*1**2" "b" "" true [] (Some 1) []) = 2
  /\ depth (mkTikiNode "*1**2***1" "c" "" true [] (Some 2) []) = 3
  /\ depth (mkTikiNode "*1**1***1****1" "d" "" true [] (Some 3) []) = 5
  /\ marker_groups "*1**1***1****1" = 4.
Proof. repeat split; vm_compute; reflexivity. Qed.

(** C1.  Claimed: the level of a concept line is the number of asterisk
    runs of its marker token, so the token [*1] gives level 1 and the
    token [*1**2] gives level 2.  The code removes the letters and digits
    of the token before it counts the runs, and the three asterisks of
    [*1**2] then form one run: the level is 1, where the token has two
    runs.  In a document the line becomes a second child of the root,
    numbered [*2]. *)
Theorem C1_numbered_token_level :
  level_of "*1" = 1 /\ marker_groups "*1" = 1
  /\ level_of "*1**2" = 1 /\ marker_groups "*1**2" = 2
  /\ exists p r,
       parse TikiParser_new ["Root"; "*1 First"; "*1**2 Second"] = Ok (p, r)
       /\ map (fun n => (node_id n, title n, parent n)) (heap p)
          = [("", "Root", None); ("*1", "First", Some 0); ("*2", "Second", Some 0)].
Proof.
  repeat split; try (vm_compute; reflexivity).
  eexists _, _. split; vm_compute; reflexivity.
Qed.

(** C2.  Claimed: a line between an opening and a closing code fence is
    kept as description text and never read as a concept line.  The code
    sets [in_code_block] at the fence and never reads it: the line
    [* item] inside the fence creates the node [*1], and the description
    of the root holds the opening fence only. *)
Theorem C2_fenced_line_becomes_node :
  exists p r,
    parse TikiParser_new ["Root"; "```python"; "* item"; "```"] = Ok (p, r)
    /\ map (fun n => (node_id n, title n, description n, parent n)) (heap p)
       = [("", "Root", "```python", None); ("*1", "item", "```", Some 0)].
Proof. eexists _, _. split; vm_compute; reflexivity. Qed.

(** C4.  Claimed: a concept line whose title is empty, such as the line
    made of two asterisks and a space, fails with a syntax error on its
    line number.  The code strips the trailing space first, the bare
    markers no longer match the concept pattern (which asks for
    whitespace after the marker token), and with a concept open the line
    is appended to the description: the parse succeeds. *)
Theorem C4_bare_marker_line_is_description :
  exists p r,
    parse TikiParser_new ["Root"; "** "] = Ok (p, r)
    /\ map (fun n => (node_id n, title n, description n)) (heap p)
       = [("", "Root", "**")].
Proof. eexists _, _. split; vm_compute; reflexivity. Qed.

(** A document read, unfolded into its tree, exported and searched. *)
Example parse_export_search :
  exists p t,
    parse TikiParser_new ["Spec"; "* Alpha"; "*-* Part"; "text"; "* Beta"]
    = Ok (p, 0)
    /\ tree_of (List.length (heap p)) (heap p) 0 = Some t
    /\ Renderer.export_ascii_tree t None
       = Py.join_lines
           ["Spec"; "├── *1 Alpha"; "│   └── *1**1 Part"; "└── *2 Beta"]
    /\ map (fun m => title (data_of m)) (Navigator._search_tree t "a")
       = ["Alpha"; "Part"; "Beta"]
    /\ map (fun m => description (data_of m)) (preorder t)
       = [""; ""; "text"; ""].
Proof.
  eexists _, _. split; [vm_compute; reflexivity|].
  split; [vm_compute; reflexivity|]. repeat split; vm_compute; reflexivity.
Qed.

(** * Further properties of the renderer, the search and the parser *)

Import View Nest.

(** ** The plain export and the styled tree *)

Lemma child_line_label prefix connector en c :
  Renderer.child_line prefix connector en c
  = ((prefix ++ connector) ++ Rich.child_label_text en c)%string.
Proof.
  unfold Renderer.child_line, Rich.child_label_text.
  destruct (_ && _); rewrite !append_assoc; reflexivity.
Qed.

Lemma for_enumerate_Forall2 {B} (R : string -> B -> Prop)
  (f : nat -> Tree -> list string -> list string)
  (g : nat -> Tree -> list string) (h : Tree -> list B) ks :
  (forall i c l, f i c l = l ++ g i c) ->
  Forall (fun c => forall i, Forall2 R (g i c) (h c)) ks ->
  forall i l acc,
    Forall2 R l acc ->
    Forall2 R (Renderer.for_enumerate f i ks l) (acc ++ flat_map h ks).
Proof.
  intros Hf H. induction H as [|c ks Hc _ IH]; intros i l acc Hl; simpl.
  - rewrite app_nil_r. exact Hl.
  - rewrite Hf, app_assoc. apply IH. apply Forall2_app; [exact Hl|apply Hc].
Qed.

(** Every line [_build_ascii_lines] adds is the label of a drawn node
    after its drawing prefix, in the order the nodes are drawn. *)
Lemma ascii_lines_shown t :
  forall prefix is_last en,
    Forall2 (fun line c => ends_with line (Rich.child_label_text en c))
      (Renderer._build_ascii_lines t [] prefix is_last en)
      (shown_below en t).
Proof.
  induction t as [d ks IH] using Tree_ind_kids. intros prefix is_last en.
  cbn [Renderer._build_ascii_lines shown_below].
  generalize (List.length ks - 1). intros L.
  apply (for_enumerate_Forall2 _ _
           (fun i child =>
              Renderer.child_line prefix
                (if (i =? L)%nat then "└── " else "├── ") en child
              :: (if Renderer.shown_expanded en child && Renderer.has_children child
                  then Renderer._build_ascii_lines child []
                         (if (i =? L)%nat then prefix ++ "    "
                          else prefix ++ "│   ")%string
                         (i =? L)%nat en
                  else []))
           _ ks) with (acc := []); [| |constructor].
  - intros i c l. cbv zeta.
    destruct (Renderer.shown_expanded en c && Renderer.has_children c).
    + rewrite build_ascii_lines_acc, <- app_assoc. reflexivity.
    + reflexivity.
  - eapply Forall_impl; [exact IH|]. intros c Hc i. cbv beta.
    constructor.
    + rewrite child_line_label. eexists. reflexivity.
    + destruct (Renderer.shown_expanded en c && Renderer.has_children c);
        [apply Hc|constructor].
Qed.

Lemma add_children_walk t :
  forall pt cur en,
    Rich.label_of (Rich._add_children_to_tree pt t cur en) = Rich.label_of pt
    /\ map (fun b => Rich.plain (Rich.label_of b))
           (flat_map walk
              (Rich.branches_of (Rich._add_children_to_tree pt t cur en)))
       = map (fun b => Rich.plain (Rich.label_of b))
             (flat_map walk (Rich.branches_of pt))
         ++ map (Rich.child_label_text en) (shown_below en t).
Proof.
  induction t as [d ks IH] using Tree_ind_kids. intros pt cur en.
  cbn [Rich._add_children_to_tree shown_below].
  revert pt. induction IH as [|c ks Hc _ IHks]; intros pt.
  - simpl. rewrite app_nil_r. split; reflexivity.
  - cbn [fold_left flat_map]. cbv zeta.
    match goal with
    | |- context [fold_left ?F ks ?x] =>
        destruct (IHks x) as [Hl Hw]; rewrite Hl, Hw
    end.
    clear IHks. cbn [Rich.label_of Rich.branches_of].
    split; [reflexivity|].
    rewrite flat_map_app, map_app. cbn [flat_map]. rewrite app_nil_r.
    rewrite <- app_assoc. f_equal. rewrite map_app. f_equal.
    cbn [map].
    set (ct0 := Rich.RTree _ _ []).
    assert (H0 : walk ct0 = [ct0]) by reflexivity.
    destruct (Renderer.shown_expanded en c); cbn [andb].
    + destruct (Renderer.has_children c).
      * destruct (Hc ct0 cur en) as [Hl0 Hw0].
        destruct (Rich._add_children_to_tree ct0 c cur en) as [lb g bs] eqn:E.
        cbn [walk map]. cbn [Rich.label_of Rich.branches_of] in Hl0, Hw0.
        rewrite Hw0. cbn [Rich.label_of]. rewrite Hl0. reflexivity.
      * reflexivity.
    + reflexivity.
Qed.

Lemma Forall2_map_r {A B C} (R : A -> C -> Prop) (f : B -> C) l k :
  Forall2 R l (map f k) -> Forall2 (fun x y => R x (f y)) l k.
Proof.
  revert l. induction k as [|y k IH]; intros l H; inversion H; subst;
    constructor; auto.
Qed.

Lemma Forall2_map_l_r {A B C} (R : A -> C -> Prop) (f : B -> C) l k :
  Forall2 (fun x y => R x (f y)) l k -> Forall2 R l (map f k).
Proof. induction 1; constructor; auto. Qed.

(** X11.  The plain export has one line for each branch of the styled
    tree, in the same order, and every line ends in the label of its
    branch: the two renderings show the same nodes, whatever the current
    node and the expanded set are. *)
Theorem ascii_export_follows_styled_tree
  (root : Tree) (current_node : option Tree) (en : option (gset string)) :
  Renderer.export_ascii_tree root en
  = Py.join_lines
      (Renderer._build_ascii_lines root [title (data_of root)] "" true
         (default ∅ en))
  /\ Forall2
       (fun line branch => ends_with line (Rich.plain (Rich.label_of branch)))
       (Renderer._build_ascii_lines root [title (data_of root)] "" true
          (default ∅ en))
       (walk (Rich.render_tree root current_node en)).
Proof.
  split; [reflexivity|].
  unfold Rich.render_tree. cbv zeta.
  set (tree := Rich.RTree _ _ []).
  destruct (add_children_walk root tree current_node (default ∅ en)) as [Hl Hw].
  destruct (Rich._add_children_to_tree tree root current_node (default ∅ en))
    as [lb g bs] eqn:E.
  cbn [walk]. cbn [Rich.label_of Rich.branches_of] in Hl, Hw.
  rewrite build_ascii_lines_acc. cbn [app].
  constructor.
  - cbn [Rich.label_of]. rewrite Hl. exists "". reflexivity.
  - apply Forall2_map_r. rewrite Hw. cbn [app flat_map map].
    apply Forall2_map_l_r. apply ascii_lines_shown.
Qed.

(** ** The JSON export *)

Lemma node_to_dict_content t :
  Json.node_to_dict (content_of t) = Json.node_to_dict t.
Proof.
  induction t as [d ks IH] using Tree_ind_kids.
  cbn [content_of Json.node_to_dict node_id title description expanded metadata].
  do 7 f_equal. rewrite map_map.
  induction IH as [|k ks Hk _ IHks]; simpl; [reflexivity|]. congruence.
Qed.

Lemma node_to_dict_inj t1 :
  forall t2, Json.node_to_dict t1 = Json.node_to_dict t2 ->
             content_of t1 = content_of t2.
Proof.
  induction t1 as [d1 ks1 IH] using Tree_ind_kids. intros [d2 ks2] H.
  cbn [Json.node_to_dict] in H. cbn [content_of].
  injection H as Hid Hti Hde Hex Hme Hks.
  rewrite Hid, Hti, Hde, Hex, Hme. f_equal.
  revert ks2 Hks. induction IH as [|k ks Hk _ IHks]; intros [|k2 ks2] Hks;
    simpl in *; try discriminate; [reflexivity|].
  injection Hks as H1 H2. f_equal; [apply Hk, H1|apply IHks, H2].
Qed.

(** X12.  The JSON export loses nothing but the references between the
    node objects: two trees have the same export exactly when they agree
    on the id, title, description, expanded flag and metadata of every
    node and on the order of the children, collapsed nodes included. *)
Theorem export_json_lossless (t1 t2 : Tree) :
  Json.export_json t1 = Json.export_json t2 <-> content_of t1 = content_of t2.
Proof.
  unfold Json.export_json. split.
  - intros H. injection H as H. apply node_to_dict_inj, H.
  - intros H. rewrite <- (node_to_dict_content t1), <- (node_to_dict_content t2), H.
    reflexivity.
Qed.

(** ** The search on an empty text *)

Lemma contains_empty s : Py.contains "" s = true.
Proof. destruct s; reflexivity. Qed.

Lemma filter_all_true {A} (f : A -> bool) l :
  (forall x, f x = true) -> List.filter f l = l.
Proof.
  intros H. induction l as [|x l IH]; simpl; [reflexivity|].
  rewrite H, IH. reflexivity.
Qed.

(** X18.  Submitting an empty search text matches every node of the
    tree: the root is shown and the count is the number of nodes. *)
Theorem empty_search_matches_all (root_node : Tree) :
  Navigator._search_tree root_node (Py.lower "") = preorder root_node
  /\ Navigator.on_input_submitted root_node ""
     = Navigator.Showing root_node (List.length (preorder root_node))
         ("Found " ++ Py.str_of_nat (List.length (preorder root_node))
          ++ " matches. Showing: " ++ title (data_of root_node))%string.
Proof.
  assert (H : Navigator._search_tree root_node (Py.lower "") = preorder root_node).
  { unfold Navigator._search_tree. rewrite search_recursive_filter.
    apply filter_all_true. intros t. unfold Navigator.node_matches.
    cbn [Py.lower]. rewrite contains_empty. reflexivity. }
  split; [exact H|].
  unfold Navigator.on_input_submitted. rewrite H.
  destruct root_node as [d ks]. reflexivity.
Qed.

(** ** Documents the parser rejects *)

Lemma blank_rstrip l : blank l -> Py.rstrip l = "".
Proof.
  unfold blank, Py.strip, Py.lstrip. induction l as [|c r IH]; [reflexivity|].
  cbn [Py.drop_while]. destruct (Py.isspace c) eqn:Hc.
  - intros H. cbn [Py.rstrip]. rewrite (IH H), Hc. reflexivity.
  - intros H. destruct (rstrip_cons_nonspace c r Hc) as [r' Hr].
    rewrite Hr in H. discriminate.
Qed.

Lemma parse_line_blank sc raw :
  blank raw -> in_frontmatter (self sc) = false ->
  parse_line sc raw
  = Ok (mkScan (with_line_number (line_number (self sc) + 1) (self sc))
          (current_concept sc)
          (match current_concept sc, pending_description_lines sc with
           | Some _, _ :: _ => pending_description_lines sc ++ [""%string]
           | _, _ => pending_description_lines sc
           end)).
Proof.
  intros Hb Hfm. unfold parse_line. rewrite (blank_rstrip raw Hb).
  cbn [frontmatter_pattern andb].
  change (in_frontmatter (with_line_number _ (self sc)))
    with (in_frontmatter (self sc)).
  rewrite Hfm. reflexivity.
Qed.

Lemma parse_lines_blank pre :
  Forall blank pre ->
  forall p, in_frontmatter p = false ->
    parse_lines (mkScan p None []) pre
    = Ok (mkScan (with_line_number (line_number p + List.length pre) p) None []).
Proof.
  induction 1 as [|l pre Hl _ IH]; intros p Hfm.
  - destruct p. unfold with_line_number. cbn. rewrite Nat.add_0_r. reflexivity.
  - cbn [parse_lines]. rewrite (parse_line_blank (mkScan p None []) l Hl Hfm). cbn [self current_concept].
    rewrite IH by exact Hfm. destruct p. unfold with_line_number. cbn.
    replace (line_number0 + 1 + List.length pre)
      with (line_number0 + S (List.length pre)) by lia.
    reflexivity.
Qed.

(** X13.  A document of blank lines only (or of no line at all) has no
    concept: the parse fails with the error of the missing root, which
    carries line number 0 and no line text. *)
Theorem blank_document_has_no_concepts parser lines :
  Forall blank lines ->
  parse parser lines
  = Raise (TikiParseError "No valid concepts found in file" 0 "").
Proof.
  intros H. unfold parse.
  rewrite (parse_lines_blank lines H (reset parser) eq_refl). reflexivity.
Qed.

Lemma blank_document_has_no_concepts_witness :
  parse TikiParser_new [""; "   "; String "009" ""]
  = Raise (TikiParseError "No valid concepts found in file" 0 "").
Proof.
  apply (blank_document_has_no_concepts TikiParser_new).
  repeat constructor.
Defined.

(** What a line matching the concept pattern does outside frontmatter. *)
Lemma parse_line_concept sc raw tok group2 :
  in_frontmatter (self sc) = false ->
  concept_pattern (Py.rstrip raw) = Some (tok, group2) ->
  parse_line sc raw
  = match _create_concept_node
            (store_description
               (with_line_number (line_number (self sc) + 1) (self sc))
               (current_concept sc) (pending_description_lines sc))
            (level_of tok)
            (fst (strip_metadata (Py.strip group2)))
            (snd (strip_metadata (Py.strip group2))) with
    | Ok (p2, n) => Ok (mkScan p2 (Some n) [])
    | Raise (TikiParseError msg _ _) =>
        Raise (TikiParseError msg (line_number (self sc) + 1) (Py.rstrip raw))
    | Raise e => Raise e
    end.
Proof.
  intros Hfm Hpat. unfold parse_line.
  set (line := Py.rstrip raw) in *.
  assert (Hstar : exists r, line = String "*" r).
  { unfold concept_pattern in Hpat.
    destruct (Py.startswith line "*") eqn:Hs; [|discriminate].
    apply startswith_star, Hs. }
  destruct Hstar as [r Hr].
  destruct (star_line_is_concept_text r) as (Hf & Hc & Hs).
  rewrite <- Hr in Hf, Hc, Hs. rewrite Hf. cbn [andb].
  change (in_frontmatter (with_line_number _ (self sc)))
    with (in_frontmatter (self sc)).
  rewrite Hfm, Hc.
  destruct (Py.strip line) eqn:Hstrip; [congruence|].
  rewrite Hpat.
  destruct (strip_metadata (Py.strip group2)) as [ttl meta]. cbn [fst snd].
  destruct (_create_concept_node _ _ ttl meta) as [[p2 n]|[msg ln lc|]];
    [reflexivity| |reflexivity].
  rewrite (proj2 (store_description_keeps _ _ _)). reflexivity.
Qed.

(** A scan that has made a node without having a root stays so. *)
Lemma parse_line_orphan sc raw sc' :
  root (self sc) = None -> current_concept sc <> None ->
  parse_line sc raw = Ok sc' ->
  root (self sc') = None /\ current_concept sc' <> None.
Proof.
  intros Hr Hc H. destruct (parse_line_cases _ _ _ H) as
    [(Hs & Hcur)|[(tok & g2 & ttl & meta & n & Hpat & Hcr & Hcur)
                 |(ttl & n & Hnone & _)]].
  - destruct Hs as (_ & Hroot & _). split; congruence.
  - split; [|congruence].
    pose proof (concept_pattern_level _ _ _ Hpat) as Hlev.
    destruct (level_of tok) as [|l]; [lia|].
    apply create_level_inv in Hcr as (_ & _ & c & _ & Hcreated).
    apply created_fields in Hcreated as (_ & _ & _ & Hroot & _).
    rewrite Hroot, store_description_root. exact Hr.
  - congruence.
Qed.

Lemma parse_lines_orphan lines :
  forall sc sc',
    root (self sc) = None -> current_concept sc <> None ->
    parse_lines sc lines = Ok sc' ->
    root (self sc') = None /\ current_concept sc' <> None.
Proof.
  induction lines as [|l lines IH]; intros sc sc' Hr Hc H; cbn [parse_lines] in H.
  - injection H as <-. split; assumption.
  - destruct (parse_line sc l) as [sc1|e] eqn:E; [|discriminate].
    destruct (parse_line_orphan _ _ _ Hr Hc E) as [Hr1 Hc1].
    exact (IH _ _ Hr1 Hc1 H).
Qed.

(** X14.  A document whose first text line is marked.  When that line starts
    with an asterisk without matching the concept pattern, the parse
    fails on it with the error of the missing root, its number and its
    text.  When it matches the concept pattern, the parse fails whatever
    follows: no later line can supply the root. *)
Theorem marked_first_line_is_rejected parser pre raw post :
  Forall blank pre ->
  (Py.startswith (Py.rstrip raw) "*" = true ->
   concept_pattern (Py.rstrip raw) = None ->
   parse parser (pre ++ raw :: post)
   = Raise (TikiParseError "File must start with root concept (no asterisks)"
              (List.length pre + 1) (Py.rstrip raw)))
  /\ (concept_pattern (Py.rstrip raw) <> None ->
      exists e, parse parser (pre ++ raw :: post) = Raise e).
Proof.
  intros Hpre.
  pose proof (parse_lines_blank pre Hpre (reset parser) eq_refl) as Hp.
  split.
  - intros Hs Hpat. unfold parse. rewrite parse_lines_app, Hp.
    cbn [parse_lines]. unfold parse_line. cbn [self current_concept].
    set (line := Py.rstrip raw) in *.
    apply startswith_star in Hs as [r Hr].
    destruct (star_line_is_concept_text r) as (Hf & Hc & Hst).
    rewrite <- Hr in Hf, Hc, Hst. rewrite Hf. cbn [andb].
    change (in_frontmatter (with_line_number _ _)) with false. cbn iota.
    rewrite Hc. destruct (Py.strip line) eqn:Hstrip; [congruence|].
    rewrite Hpat. rewrite Hr at 1. rewrite startswith_star_cons. cbn [negb].
    reflexivity.
  - intros Hpat. unfold parse. rewrite parse_lines_app, Hp.
    cbn [parse_lines].
    destruct (concept_pattern (Py.rstrip raw)) as [[tok g2]|] eqn:E;
      [clear Hpat|congruence].
    match goal with
    | |- context [parse_line ?s raw] => set (sc0 := s)
    end.
    destruct (parse_line sc0 raw) as [sc1|e] eqn:E1; [|eexists; reflexivity].
    assert (H1 : root (self sc1) = None /\ current_concept sc1 <> None).
    { rewrite (parse_line_concept sc0 raw tok g2 eq_refl E) in E1.
      pose proof (concept_pattern_level _ _ _ E) as Hlev.
      destruct (_create_concept_node _ _ _ _) as [[p2 n]|[msg ln lc|]] eqn:Hcr;
        try discriminate.
      injection E1 as <-. cbn [self current_concept]. split; [|discriminate].
      destruct (level_of tok) as [|l]; [lia|].
      apply create_level_inv in Hcr as (_ & _ & c & _ & Hcreated).
      apply created_fields in Hcreated as (_ & _ & _ & Hroot & _).
      rewrite Hroot. reflexivity. }
    destruct H1 as [Hr1 Hc1].
    destruct (parse_lines sc1 post) as [sc2|e] eqn:E2; [|eexists; reflexivity].
    destruct (parse_lines_orphan _ _ _ Hr1 Hc1 E2) as [Hr2 _].
    rewrite store_description_root, Hr2. eexists. reflexivity.
Qed.

Lemma marked_first_line_is_rejected_witness :
  parse TikiParser_new ([""] ++ "**" :: ["Root"])
  = Raise (TikiParseError "File must start with root concept (no asterisks)"
             2 "**")
  /\ exists e, parse TikiParser_new ([""] ++ "* First" :: ["Root"]) = Raise e.
Proof.
  split.
  - apply (proj1 (marked_first_line_is_rejected TikiParser_new [""] "**" ["Root"]
                    ltac:(repeat constructor))); reflexivity.
  - apply (proj2 (marked_first_line_is_rejected TikiParser_new [""] "* First"
                    ["Root"] ltac:(repeat constructor))).
    vm_compute. discriminate.
Defined.

(** ** Level jumps and the depth limit *)

Lemma store_description_parts p c pd :
  current_id_parts (store_description p c pd) = current_id_parts p
  /\ parent_stack (store_description p c pd) = parent_stack p.
Proof. unfold store_description. destruct c, pd; split; reflexivity. Qed.

(** X15.  A concept line whose level is more than one below the innermost open
    concept makes the parse fail with the error of the level jump, which
    names the level found and the deepest level allowed, and carries the
    number and the text of the line. *)
Theorem level_jump_fails_on_its_line parser pre raw post sc tok group2 :
  parse_lines (mkScan (reset parser) None []) pre = Ok sc ->
  in_frontmatter (self sc) = false ->
  concept_pattern (Py.rstrip raw) = Some (tok, group2) ->
  fst (strip_metadata (Py.strip group2)) <> "" ->
  parent_stack (self sc) <> [] ->
  List.length (parent_stack (self sc)) < level_of tok ->
  parse parser (pre ++ raw :: post)
  = Raise (TikiParseError
             ("Invalid level jump: found level " ++ Py.str_of_nat (level_of tok)
              ++ ", expected max "
              ++ Py.str_of_nat (List.length (parent_stack (self sc))))%string
             (List.length pre + 1) (Py.rstrip raw)).
Proof.
  intros Hpre Hfm Hpat Httl Hst Hlev. unfold parse.
  rewrite parse_lines_app, Hpre. cbn [parse_lines].
  rewrite (parse_line_concept sc raw tok group2 Hfm Hpat).
  destruct (level_of tok) as [|l] eqn:El; [lia|].
  rewrite create_level_jump;
    [| exact Httl
     | rewrite (proj2 (store_description_parts _ _ _)); exact Hst
     | rewrite (proj2 (store_description_parts _ _ _)); exact Hlev].
  rewrite (proj2 (store_description_parts _ _ _)).
  change (parent_stack (with_line_number _ (self sc)))
    with (parent_stack (self sc)).
  replace (List.length (parent_stack (self sc)) - 1 + 1)
    with (List.length (parent_stack (self sc)))
    by (destruct (parent_stack (self sc)); [congruence|simpl; lia]).
  apply parse_lines_keeps in Hpre as [_ Hln]. rewrite Hln. reflexivity.
Qed.

Lemma level_jump_fails_on_its_line_witness :
  parse TikiParser_new (["Root"; "* First"] ++ "*-*-* Deep" :: ["* Last"])
  = Raise (TikiParseError "Invalid level jump: found level 3, expected max 2"
             3 "*-*-* Deep").
Proof.
  eapply eq_trans.
  - eapply (level_jump_fails_on_its_line TikiParser_new ["Root"; "* First"]
              "*-*-* Deep" ["* Last"]);
      [vm_compute; reflexivity | reflexivity | vm_compute; reflexivity
      | vm_compute; discriminate | vm_compute; discriminate | vm_compute; lia].
  - vm_compute. reflexivity.
Defined.

Lemma create_parts_length p level ttl meta p' n :
  _create_concept_node p level ttl meta = Ok (p', n) ->
  List.length (current_id_parts p') = List.length (current_id_parts p).
Proof.
  destruct level as [|l].
  - unfold _create_concept_node. destruct ttl; [discriminate|].
    destruct (root p); [discriminate|]. cbn. intros H. injection H as <- _.
    reflexivity.
  - intros H. apply create_level_inv in H as (_ & _ & c & _ & Hc).
    apply created_fields in Hc as (_ & -> & _).
    rewrite reset_from_length, length_insert. reflexivity.
Qed.


Lemma parse_line_parts_length sc raw sc' :
  parse_line sc raw = Ok sc' ->
  List.length (current_id_parts (self sc'))
  = List.length (current_id_parts (self sc)).
Proof.
  intros H. destruct (parse_line_cases _ _ _ H) as
    [(Hs & _)|[(tok & g2 & ttl & meta & n & _ & Hcr & _)|(ttl & n & _ & Hcr & _)]].
  - destruct Hs as (_ & _ & _ & ->). reflexivity.
  - apply create_parts_length in Hcr. rewrite Hcr.
    rewrite (proj1 (store_description_parts _ _ _)). reflexivity.
  - apply create_parts_length in Hcr. rewrite Hcr. reflexivity.
Qed.

Lemma parse_lines_parts_length lines :
  forall sc sc',
    parse_lines sc lines = Ok sc' ->
    List.length (current_id_parts (self sc'))
    = List.length (current_id_parts (self sc)).
Proof.
  induction lines as [|l lines IH]; intros sc sc' H; cbn [parse_lines] in H.
  - injection H as <-. reflexivity.
  - destruct (parse_line sc l) as [sc1|e] eqn:E; [|discriminate].
    rewrite (IH _ _ H). apply (parse_line_parts_length _ _ _ E).
Qed.

(** X16.  The counters hold ten levels.  A concept line of level 11 or more
    that is no level jump (ten levels are open above it, or nothing is)
    does not fail with a parse error: the parse raises [IndexError]. *)
Theorem eleventh_level_raises_index_error parser pre raw post sc tok group2 :
  parse_lines (mkScan (reset parser) None []) pre = Ok sc ->
  in_frontmatter (self sc) = false ->
  concept_pattern (Py.rstrip raw) = Some (tok, group2) ->
  fst (strip_metadata (Py.strip group2)) <> "" ->
  11 <= level_of tok ->
  parent_stack (self sc) = []
  \/ level_of tok <= List.length (parent_stack (self sc)) ->
  parse parser (pre ++ raw :: post) = Raise IndexError.
Proof.
  intros Hpre Hfm Hpat Httl Hlev Hst. unfold parse.
  rewrite parse_lines_app, Hpre. cbn [parse_lines].
  rewrite (parse_line_concept sc raw tok group2 Hfm Hpat).
  destruct (level_of tok) as [|l] eqn:El; [lia|].
  rewrite create_beyond_counters; [reflexivity | exact Httl | | ].
  - rewrite (proj2 (store_description_parts _ _ _)). exact Hst.
  - rewrite (proj1 (store_description_parts _ _ _)).
    change (current_id_parts (with_line_number _ (self sc)))
      with (current_id_parts (self sc)).
    rewrite (parse_lines_parts_length _ _ _ Hpre). cbn. lia.
Qed.

Lemma eleventh_level_raises_index_error_witness :
  parse TikiParser_new
    (["Root"; "* L1"; "*-* L2"; "*-*-* L3"; "*-*-*-* L4"; "*-*-*-*-* L5";
      "*-*-*-*-*-* L6"; "*-*-*-*-*-*-* L7"; "*-*-*-*-*-*-*-* L8";
      "*-*-*-*-*-*-*-*-* L9"; "*-*-*-*-*-*-*-*-*-* L10"]
     ++ "*-*-*-*-*-*-*-*-*-*-* L11" :: [])
  = Raise IndexError.
Proof.
  eapply (eleventh_level_raises_index_error TikiParser_new _
            "*-*-*-*-*-*-*-*-*-*-* L11" []);
    [vm_compute; reflexivity | reflexivity | vm_compute; reflexivity
    | vm_compute; discriminate | vm_compute; lia | right; vm_compute; lia].
Defined.

(** ** A parser object used again *)

Lemma create_raw x q level ttl meta :
  _create_concept_node (with_raw_frontmatter x q) level ttl meta
  = match _create_concept_node q level ttl meta with
    | Ok (q2, n) => Ok (with_raw_frontmatter x q2, n)
    | Raise e => Raise e
    end.
Proof.
  unfold _create_concept_node. destruct ttl as [|a ttl]; [reflexivity|].
  destruct level as [|l].
  - cbn [root with_raw_frontmatter]. destruct (root q); reflexivity.
  - cbn [parent_stack current_id_parts with_raw_frontmatter].
    destruct (_ && _); [reflexivity|].
    destruct (current_id_parts q !! (S l - 1)); reflexivity.
Qed.

Lemma store_description_raw x q c pd :
  store_description (with_raw_frontmatter x q) c pd
  = with_raw_frontmatter x (store_description q c pd).
Proof. unfold store_description. destruct c, pd; reflexivity. Qed.

Lemma store_description_raw_lines q c pd :
  _frontmatter_lines (store_description q c pd) = _frontmatter_lines q.
Proof. unfold store_description. destruct c, pd; reflexivity. Qed.

Lemma carried_default x y :
  default [] (carried x y) = default [] x ++ default [] y.
Proof. destruct y; simpl; [reflexivity|]. rewrite app_nil_r. reflexivity. Qed.

Lemma parse_line_raw x q c pd raw :
  parse_line (mkScan (with_raw_frontmatter (carried x (_frontmatter_lines q)) q)
                c pd) raw
  = match parse_line (mkScan q c pd) raw with
    | Ok sc2 =>
        Ok (mkScan
              (with_raw_frontmatter
                 (carried x (_frontmatter_lines (self sc2))) (self sc2))
              (current_concept sc2) (pending_description_lines sc2))
    | Raise e => Raise e
    end.
Proof.
  unfold parse_line. cbn [self current_concept pending_description_lines].
  set (line := Py.rstrip raw).
  set (y := _frontmatter_lines q).
  change (line_number (with_raw_frontmatter (carried x y) q)) with (line_number q).
  change (with_line_number (line_number q + 1)
            (with_raw_frontmatter (carried x y) q))
    with (with_raw_frontmatter (carried x y)
            (with_line_number (line_number q + 1) q)).
  set (p := with_line_number (line_number q + 1) q).
  assert (Hy : _frontmatter_lines p = y) by reflexivity.
  change (in_frontmatter (with_raw_frontmatter (carried x y) p))
    with (in_frontmatter p).
  change (line_number (with_raw_frontmatter (carried x y) p))
    with (line_number p).
  change (in_code_block (with_raw_frontmatter (carried x y) p))
    with (in_code_block p).
  change (_frontmatter_lines (with_raw_frontmatter (carried x y) p))
    with (carried x y).
  destruct (frontmatter_pattern line
            && (negb (in_frontmatter p) && (line_number p <=? 10)%nat));
    [reflexivity|].
  destruct (frontmatter_pattern line && in_frontmatter p); [reflexivity|].
  destruct (in_frontmatter p).
  { cbn [self current_concept pending_description_lines].
    unfold with_frontmatter_lines, with_raw_frontmatter.
    cbn [_frontmatter_lines heap root parent_stack current_id_parts line_number
         frontmatter in_frontmatter in_code_block code_block_lang carried].
    rewrite carried_default, Hy, app_assoc. reflexivity. }
  destruct (code_block_pattern line) as [g1|].
  { destruct (in_code_block p); reflexivity. }
  destruct (Py.strip line); [reflexivity|].
  destruct (concept_pattern line) as [[tok g2]|].
  - rewrite store_description_raw.
    destruct (strip_metadata (Py.strip g2)) as [ttl meta].
    rewrite create_raw.
    destruct (_create_concept_node _ _ ttl meta) as [[p2 n]|[msg ln lc|]] eqn:E;
      [|reflexivity|reflexivity].
    cbn [self current_concept pending_description_lines].
    apply create_keeps in E as (_ & _ & _ & Hfl).
    rewrite Hfl, store_description_raw_lines, Hy. reflexivity.
  - destruct c; [reflexivity|].
    destruct (negb (Py.startswith line "*")); [|reflexivity].
    rewrite create_raw.
    destruct (_create_concept_node p 0 _ []) as [[p2 n]|e] eqn:E;
      [|reflexivity].
    cbn [self current_concept pending_description_lines].
    apply create_keeps in E as (_ & _ & _ & Hfl).
    rewrite Hfl, Hy. reflexivity.
Qed.

Lemma parse_lines_raw x lines :
  forall q c pd,
    parse_lines
      (mkScan (with_raw_frontmatter (carried x (_frontmatter_lines q)) q) c pd)
      lines
    = match parse_lines (mkScan q c pd) lines with
      | Ok sc2 =>
          Ok (mkScan
                (with_raw_frontmatter
                   (carried x (_frontmatter_lines (self sc2))) (self sc2))
                (current_concept sc2) (pending_description_lines sc2))
      | Raise e => Raise e
      end.
Proof.
  induction lines as [|l lines IH]; intros q c pd; cbn [parse_lines].
  - reflexivity.
  - rewrite parse_line_raw.
    destruct (parse_line (mkScan q c pd) l) as [[q2 c2 pd2]|e]; [|reflexivity].
    cbn [self current_concept pending_description_lines]. apply IH.
Qed.

(** X17.  [reset] leaves [_frontmatter_lines] alone, and nothing else of an
    earlier parse: a parser object that was used before gives, on the same
    lines, the error or the root and the state that a new parser gives,
    except that [_frontmatter_lines] starts with the lines the earlier
    parses left in it. *)
Theorem reused_parser_parses_alike parser lines :
  parse parser lines
  = match parse TikiParser_new lines with
    | Ok (q, r) =>
        Ok (with_raw_frontmatter
              (carried (_frontmatter_lines parser) (_frontmatter_lines q)) q, r)
    | Raise e => Raise e
    end.
Proof.
  unfold parse.
  change (reset parser)
    with (with_raw_frontmatter
            (carried (_frontmatter_lines parser)
               (_frontmatter_lines (reset TikiParser_new)))
            (reset TikiParser_new)).
  rewrite parse_lines_raw.
  destruct (parse_lines _ lines) as [[q2 c2 pd2]|e]; [|reflexivity].
  cbn [self current_concept pending_description_lines].
  rewrite store_description_raw.
  change (root (with_raw_frontmatter ?x ?q)) with (root q).
  destruct (root (store_description q2 c2 pd2)); [|reflexivity].
  rewrite store_description_raw_lines. reflexivity.
Qed.

(** ** What every node of a parse looks like *)

Lemma rstrip_cons c r :
  Py.rstrip (String c r)
  = match Py.rstrip r with
    | EmptyString => if Py.isspace c then EmptyString else String c EmptyString
    | r' => String c r'
    end.
Proof. reflexivity. Qed.

Lemma rstrip_idem s : Py.rstrip (Py.rstrip s) = Py.rstrip s.
Proof.
  induction s as [|c r IH]; [reflexivity|].
  rewrite rstrip_cons. destruct (Py.rstrip r) as [|a r'] eqn:E.
  - destruct (Py.isspace c) eqn:Hc; [reflexivity|].
    rewrite rstrip_cons. cbn [Py.rstrip]. rewrite Hc. reflexivity.
  - rewrite rstrip_cons, IH. reflexivity.
Qed.

Lemma lstrip_head s :
  Py.lstrip s = ""
  \/ exists c r, Py.lstrip s = String c r /\ Py.isspace c = false.
Proof.
  unfold Py.lstrip. induction s as [|c r IH]; [left; reflexivity|].
  cbn [Py.drop_while]. destruct (Py.isspace c) eqn:Hc; [exact IH|].
  right. exists c, r. split; [reflexivity|exact Hc].
Qed.

Lemma strip_idem s : Py.strip (Py.strip s) = Py.strip s.
Proof.
  unfold Py.strip at 2 3. destruct (lstrip_head s) as [->|(c & r & -> & Hc)];
    [reflexivity|].
  destruct (rstrip_cons_nonspace c r Hc) as [r' Hr].
  unfold Py.strip, Py.lstrip. rewrite Hr. cbn [Py.drop_while]. rewrite Hc.
  rewrite <- Hr. apply rstrip_idem.
Qed.

Lemma strip_metadata_stripped s :
  Py.strip (fst (strip_metadata (Py.strip s))) = fst (strip_metadata (Py.strip s)).
Proof.
  unfold strip_metadata. cbn [fst].
  generalize (metadata_pattern_findall (Py.strip s)).
  assert (H : Py.strip (Py.strip s) = Py.strip s) by apply strip_idem.
  revert H. generalize (Py.strip s). intros t Ht ms. revert t Ht.
  induction ms as [|m ms IH]; intros t Ht; cbn [fold_left]; [exact Ht|].
  apply IH, strip_idem.
Qed.

Lemma fresh_node_add_child c n : fresh_node n -> fresh_node (add_child c n).
Proof. intros H. exact H. Qed.

Lemma create_fresh p level ttl meta p' n :
  Forall fresh_node (heap p) -> Py.strip ttl = ttl ->
  _create_concept_node p level ttl meta = Ok (p', n) ->
  Forall fresh_node (heap p').
Proof.
  intros Hh Ht H.
  assert (Hnew : forall id par,
            ttl <> "" -> fresh_node (mkTikiNode id ttl "" true meta par [])).
  { intros id par Hne. repeat split; [exact Hne|exact Ht]. }
  destruct level as [|l].
  - unfold _create_concept_node in H. destruct ttl as [|a t]; [discriminate|].
    destruct (root p); [discriminate|]. cbn in H. injection H as <- _.
    cbn [heap]. apply Forall_app. split; [exact Hh|].
    constructor; [|constructor]. repeat split; [discriminate|exact Ht].
  - apply create_level_inv in H as (Hne & _ & c & _ & Hc).
    destruct Hc as [_ ->]. cbn [heap]. apply Forall_app. split.
    + destruct (last _); [|exact Hh].
      apply Forall_alter; [exact Hh|]. intros x _ Hx.
      apply fresh_node_add_child, Hx.
    + constructor; [|constructor]. apply Hnew, Hne.
Qed.

Lemma store_description_fresh p c pd :
  Forall fresh_node (heap p) -> Forall fresh_node (heap (store_description p c pd)).
Proof.
  intros H. unfold store_description. destruct c as [c|], pd as [|l pd];
    try exact H.
  cbn [heap with_heap]. apply Forall_alter; [exact H|].
  intros x _ (H1 & H2 & _ & H4). repeat split; try assumption.
  cbn [description set_description]. apply strip_idem.
Qed.

Lemma parse_line_fresh sc raw sc' :
  Forall fresh_node (heap (self sc)) ->
  parse_line sc raw = Ok sc' ->
  Forall fresh_node (heap (self sc')).
Proof.
  intros Hh H. unfold parse_line in H.
  set (p := with_line_number (line_number (self sc) + 1) (self sc)) in *.
  assert (Hp : Forall fresh_node (heap p)) by exact Hh.
  set (line := Py.rstrip raw) in *.
  destruct (frontmatter_pattern line
            && (negb (in_frontmatter p) && (line_number p <=? 10)%nat)).
  { injection H as <-. exact Hp. }
  destruct (frontmatter_pattern line && in_frontmatter p).
  { injection H as <-. exact Hp. }
  destruct (in_frontmatter p).
  { injection H as <-. exact Hp. }
  destruct (code_block_pattern line) as [g|].
  { destruct (in_code_block p); injection H as <-; exact Hp. }
  destruct (Py.strip line) eqn:E5.
  { injection H as <-. exact Hp. }
  rewrite <- E5 in H.
  destruct (concept_pattern line) as [[tok group2]|].
  - pose proof (strip_metadata_stripped group2) as Hs.
    destruct (strip_metadata (Py.strip group2)) as [ttl meta]. cbn [fst] in Hs.
    destruct (_create_concept_node _ (level_of tok) ttl meta)
      as [[p2 n]|e] eqn:E8.
    + injection H as <-. cbn [self].
      eapply create_fresh; [|exact Hs|exact E8].
      apply store_description_fresh, Hp.
    + destruct e; discriminate.
  - destruct (current_concept sc) as [c|].
    + injection H as <-. exact Hp.
    + destruct (negb (Py.startswith line "*")); [|discriminate].
      destruct (_create_concept_node p 0 _ []) as [[p2 n]|e] eqn:E8;
        [|discriminate].
      injection H as <-. cbn [self].
      eapply create_fresh; [exact Hp|apply strip_idem|exact E8].
Qed.

Lemma parse_lines_fresh lines :
  forall sc sc',
    Forall fresh_node (heap (self sc)) ->
    parse_lines sc lines = Ok sc' ->
    Forall fresh_node (heap (self sc')).
Proof.
  induction lines as [|l lines IH]; intros sc sc' Hh H; cbn [parse_lines] in H.
  - injection H as <-. exact Hh.
  - destruct (parse_line sc l) as [sc1|e] eqn:E; [|discriminate].
    exact (IH _ _ (parse_line_fresh _ _ _ Hh E) H).
Qed.

Lemma parse_fresh parser lines p r :
  parse parser lines = Ok (p, r) -> Forall fresh_node (heap p).
Proof.
  unfold parse. intros H.
  destruct (parse_lines _ lines) as [sc|e] eqn:E; [|discriminate].
  destruct (root _); [|discriminate]. injection H as <- _.
  apply store_description_fresh.
  refine (parse_lines_fresh _ _ _ _ E). constructor.
Qed.

(** X9.  Every node of a successful parse has a title that is not empty and
    has no whitespace at its ends, a description without whitespace at
    its ends (empty when no description line followed the concept), and
    is expanded. *)
Theorem parsed_nodes_are_trimmed parser lines p r :
  parse parser lines = Ok (p, r) ->
  forall i n, heap p !! i = Some n ->
    title n <> "" /\ Py.strip (title n) = title n
    /\ Py.strip (description n) = description n
    /\ expanded n = true.
Proof.
  intros H i n Hn. apply parse_fresh in H.
  rewrite Forall_lookup in H. exact (H i n Hn).
Qed.

Lemma parsed_nodes_are_trimmed_witness :
  exists p n,
    parse TikiParser_new ["  Root  "; " text "; "*   First [draft]  "] = Ok (p, 0)
    /\ heap p !! 1 = Some n
    /\ title n <> "" /\ Py.strip (title n) = title n
    /\ Py.strip (description n) = description n
    /\ expanded n = true.
Proof.
  eexists _, _. split; [vm_compute; reflexivity|].
  split; [vm_compute; reflexivity|].
  refine (parsed_nodes_are_trimmed TikiParser_new
            ["  Root  "; " text "; "*   First [draft]  "] _ 0 _ 1 _ _);
    [vm_compute; reflexivity|vm_compute; reflexivity].
Defined.

(** ** Document order *)

(** *** The nesting is kept by every line *)

Lemma sorted_lookup_le (st : list nat) :
  StronglySorted lt st ->
  forall a b x y, st !! a = Some x -> st !! b = Some y -> a <= b -> x <= y.
Proof.
  induction 1 as [|z st Hs IH Hall]; intros a b x y Ha Hb Hab.
  - discriminate.
  - destruct a as [|a], b as [|b]; simpl in Ha, Hb.
    + injection Ha as <-. injection Hb as <-. lia.
    + injection Ha as <-. rewrite Forall_forall in Hall.
      assert (z < y); [|lia]. apply Hall.
      eapply list_elem_of_lookup_2; eauto.
    + lia.
    + apply (IH a b); auto; lia.
Qed.

Lemma sorted_take (st : list nat) k :
  StronglySorted lt st -> StronglySorted lt (take k st).
Proof.
  intros H. revert k. induction H as [|z st Hs IH Hall]; intros [|k]; simpl;
    try constructor.
  - apply IH.
  - rewrite Forall_forall in *. intros x Hx. apply Hall.
    apply elem_of_take in Hx as (i & Hi & _).
    eapply list_elem_of_lookup_2; eauto.
Qed.

Lemma create_nested p l ttl meta p' n :
  stack_ok p -> nested (heap p) -> stack_nested p ->
  _create_concept_node p (S l) ttl meta = Ok (p', n) ->
  nested (heap p') /\ stack_nested p'.
Proof.
  intros (Hroot & [st Hst] & Hstack) Hnest [Hsorted Hbelow] Hcreate.
  apply create_level_inv in Hcreate as (_ & Hjump & c & Hc & Hn & ->).
  destruct Hjump as [Hnil|Hjump]; [congruence|].
  rewrite last_take_lookup by exact Hjump.
  destruct (lookup_lt_is_Some_2 (parent_stack p) l) as [q Hq]; [lia|].
  rewrite Hq.
  set (new := mkTikiNode _ ttl "" true meta (Some q) []).
  unfold stack_nested. cbn [heap parent_stack]. split.
  - intros j nj qj k m Hj Hpj Hqk Hkj Hk.
    apply (created_store_inv _ _ _ _ Hn) in Hj
      as [[-> ->]|(Hjlt & mj & Hmj & _ & Hparj & _)];
    apply (created_store_inv _ _ _ _ Hn) in Hk
      as [[-> ->]|(Hklt & mk & Hmk & _ & Hpark & _)]; try lia.
    + cbn [parent new] in Hpj. injection Hpj as <-.
      rewrite Hpark. exact (Hbelow l q k mk Hq Hmk Hqk).
    + rewrite Hpark. rewrite Hparj in Hpj.
      exact (Hnest j mj qj k mk Hmj Hpj Hqk Hkj Hmk).
  - assert (Hlen : List.length (take (S l) (parent_stack p)) = S l)
      by (rewrite length_take; lia).
    split.
    + apply sorted_snoc; [apply sorted_take, Hsorted|].
      intros j Hj. apply list_elem_of_In in Hj.
      apply elem_of_take in Hj as (k & Hk & _).
      destruct (Hstack k j Hk) as (m & Hm & _).
      rewrite Hn. eapply lookup_lt_Some; eauto.
    + intros k q' j nj Hk Hj Hq'j.
      destruct (decide (k < S l)) as [Hlt|Hge].
      * rewrite lookup_app_l in Hk by lia.
        rewrite lookup_take_lt in Hk by lia.
        apply (created_store_inv _ _ _ _ Hn) in Hj
          as [[-> ->]|(Hjlt & mj & Hmj & _ & Hparj & _)].
        -- exists q. split; [reflexivity|].
           apply (sorted_lookup_le _ Hsorted k l); auto; lia.
        -- rewrite Hparj. exact (Hbelow k q' j mj Hk Hmj Hq'j).
      * rewrite lookup_app_r in Hk by lia. rewrite Hlen in Hk.
        destruct (k - S l) as [|d] eqn:Hd; simpl in Hk; [|discriminate].
        injection Hk as <-.
        assert (j < S n); [|lia].
        apply lookup_lt_Some in Hj.
        rewrite length_app, length_alter in Hj. simpl in Hj. lia.
Qed.

Lemma create_root_nested p ttl meta p' n :
  heap p = [] -> root p = None ->
  _create_concept_node p 0 ttl meta = Ok (p', n) ->
  nested (heap p') /\ stack_nested p'.
Proof.
  intros Hh Hr. unfold _create_concept_node.
  destruct ttl as [|a t]; [discriminate|]. rewrite Hr, Hh. simpl.
  intros H. inversion H; subst; clear H. simpl. split.
  - intros [|j] nj qj k m Hj Hpj Hqk Hkj Hk; [lia|]. discriminate.
  - split; [repeat constructor|].
    intros [|k] q [|j] nj Hk Hj Hlt; simpl in *; try discriminate.
    injection Hk as <-. lia.
Qed.

Lemma nested_alter_shape h f c :
  (forall n, same_shape n (f n)) -> nested h -> nested (alter f c h).
Proof.
  intros Hf Hn j nj q k m Hj Hp Hqk Hkj Hk.
  assert (Hold : forall i x, alter f c h !! i = Some x ->
            exists x0, h !! i = Some x0 /\ parent x = parent x0).
  { intros i x Hi. destruct (decide (i = c)) as [->|Hne].
    - rewrite list_lookup_alter_eq in Hi.
      destruct (h !! c) as [x0|] eqn:Hc; [|discriminate].
      simpl in Hi. injection Hi as <-. exists x0. split; [reflexivity|].
      apply (Hf x0).
    - rewrite list_lookup_alter_ne in Hi by congruence. exists x. auto. }
  destruct (Hold _ _ Hj) as (nj0 & Hj0 & Hpj).
  destruct (Hold _ _ Hk) as (m0 & Hk0 & Hpk).
  rewrite Hpk. rewrite Hpj in Hp. exact (Hn j nj0 q k m0 Hj0 Hp Hqk Hkj Hk0).
Qed.

Lemma stack_nested_alter_shape p f c p' :
  (forall n, same_shape n (f n)) ->
  heap p' = alter f c (heap p) -> parent_stack p' = parent_stack p ->
  stack_nested p -> stack_nested p'.
Proof.
  intros Hf Hh Hs [Hsorted Hbelow]. unfold stack_nested. rewrite Hh, Hs.
  split; [exact Hsorted|]. intros k q j nj Hk Hj Hlt.
  destruct (decide (j = c)) as [->|Hne].
  - rewrite list_lookup_alter_eq in Hj.
    destruct (heap p !! c) as [x0|] eqn:Hc; [|discriminate].
    simpl in Hj. injection Hj as <-.
    destruct (Hf x0) as (_ & -> & _). exact (Hbelow k q c x0 Hk Hc Hlt).
  - rewrite list_lookup_alter_ne in Hj by congruence.
    exact (Hbelow k q j nj Hk Hj Hlt).
Qed.

Lemma store_description_nested p c pd :
  nested (heap p) -> stack_nested p ->
  nested (heap (store_description p c pd))
  /\ stack_nested (store_description p c pd).
Proof.
  intros Hn Hs. unfold store_description.
  destruct c as [c|]; [|split; assumption].
  destruct pd as [|x pd]; [split; assumption|].
  split.
  - apply nested_alter_shape; [apply set_description_shape|exact Hn].
  - eapply stack_nested_alter_shape; [apply set_description_shape|..|exact Hs];
      reflexivity.
Qed.

Lemma stack_nested_same_tree p p' :
  same_tree p p' -> stack_nested p -> stack_nested p'.
Proof.
  intros (Hh & _ & Hs & _). unfold stack_nested. rewrite Hh, Hs. tauto.
Qed.

Lemma parse_line_nested sc raw sc' :
  scan_ok sc -> scan_nested sc ->
  parse_line sc raw = Ok sc' -> scan_nested sc'.
Proof.
  intros Hok Hnest Hline.
  apply parse_line_cases in Hline
    as [[Hsame Hcur]
       |[(tok & g & ttl & meta & n & Hpat & Hcreate & Hcur)
        |(ttl & n & Hnone & Hcreate & Hcur)]].
  - destruct Hnest as [Hr|[Hn Hs]].
    + left. destruct Hsame as (_ & Hr' & _). congruence.
    + right. split; [|eapply stack_nested_same_tree; eauto].
      destruct Hsame as (-> & _). exact Hn.
  - apply concept_pattern_level in Hpat.
    destruct (level_of tok) as [|l]; [lia|].
    destruct Hok as [[Hr Hempty]|[Ht Hs]].
    + left. apply create_level_inv in Hcreate as (_ & _ & c & _ & _ & ->).
      simpl. rewrite store_description_root. exact Hr.
    + destruct Hnest as [Hr|[Hn Hsn]];
        [destruct Hs as (Hr' & _); congruence|].
      right. eapply create_nested; [..|exact Hcreate].
      * apply store_description_ok; [exact Ht|].
        eapply stack_ok_same_tree; [|exact Hs]. repeat split.
      * apply store_description_nested; [exact Hn|].
        eapply stack_nested_same_tree; [|exact Hsn]. repeat split.
      * apply store_description_nested; [exact Hn|].
        eapply stack_nested_same_tree; [|exact Hsn]. repeat split.
  - destruct Hok as [[Hr Hempty]|[Ht Hs]].
    + right. eapply create_root_nested; [..|exact Hcreate].
      * apply Hempty, Hnone.
      * exact Hr.
    + exfalso. eapply create_root_only_once; [|exact Hcreate].
      eapply stack_ok_same_tree; [|exact Hs]. repeat split.
Qed.

Lemma parse_lines_nested lines :
  forall sc sc',
    scan_ok sc -> scan_nested sc ->
    parse_lines sc lines = Ok sc' -> scan_nested sc'.
Proof.
  induction lines as [|l lines IH]; intros sc sc' Hok Hn H; simpl in H.
  - inversion H; subst. exact Hn.
  - destruct (parse_line sc l) as [sc1|e] eqn:Hl; [|discriminate].
    eapply IH; [| |exact H].
    + eapply parse_line_preserves; eauto.
    + eapply parse_line_nested; eauto.
Qed.

Lemma parse_nested parser lines p r :
  parse parser lines = Ok (p, r) -> nested (heap p).
Proof.
  unfold parse. intros H.
  destruct (parse_lines _ lines) as [sc|e] eqn:Hlines; [|discriminate].
  apply parse_lines_nested in Hlines;
    [|left; split; reflexivity|left; reflexivity].
  destruct (root (store_description _ _ _)) as [r0|] eqn:Hroot; [|discriminate].
  inversion H; subst; clear H.
  rewrite store_description_root in Hroot.
  destruct Hlines as [Hr|[Hn Hs]]; [congruence|].
  apply store_description_nested; assumption.
Qed.

(** *** The tree of a nested store lists it in order *)

Lemma slice_nil (h : Store) a : slice h a a = [].
Proof. unfold slice. rewrite Nat.sub_diag. reflexivity. Qed.

Lemma slice_cons (h : Store) a b d :
  h !! a = Some d -> a < b -> slice h a b = d :: slice h (S a) b.
Proof.
  intros Hd Hlt. unfold slice. rewrite (drop_S h d a Hd).
  replace (b - a) with (S (b - S a)) by lia. reflexivity.
Qed.

Lemma slice_app (h : Store) a m b :
  a <= m -> m <= b -> slice h a b = slice h a m ++ slice h m b.
Proof.
  intros H1 H2. unfold slice.
  replace (b - a) with ((m - a) + (b - m)) by lia.
  rewrite <- take_take_drop, drop_drop.
  replace (a + (m - a)) with m by lia. reflexivity.
Qed.

Lemma slice_full (h : Store) : slice h 0 (List.length h) = h.
Proof. unfold slice. rewrite Nat.sub_0_r. apply firstn_all. Qed.

Lemma sorted_head_le (c : nat) rest x :
  StronglySorted lt (c :: rest) -> In x rest -> c < x.
Proof.
  intros H Hx. inversion H as [|? ? _ Hall]; subst.
  rewrite Forall_forall in Hall. apply Hall, list_elem_of_In, Hx.
Qed.

Section NestedStore.
Variable h : Store.
Hypothesis Htree : tree_ok h.
Hypothesis Hnest : nested h.

Lemma parent_earlier k m pk :
  h !! k = Some m -> parent m = Some pk -> pk < k.
Proof.
  intros Hm Hp. destruct (Htree k m Hm) as [Hnode _].
  unfold node_ok in Hnode. rewrite Hp in Hnode. tauto.
Qed.

Lemma child_listed i d k m :
  h !! i = Some d -> h !! k = Some m -> parent m = Some i ->
  In k (children d).
Proof.
  intros Hd Hm Hp. destruct (Htree k m Hm) as [Hnode _].
  unfold node_ok in Hnode. rewrite Hp in Hnode.
  destruct Hnode as (_ & pn & Hpn & _ & Hin). congruence.
Qed.

(** The trees of the children [cs] of the node at [i], which cover the
    part of the store from [s] to [e]. *)
Lemma kids_slice fuel i e :
  (forall c ec dc,
     h !! c = Some dc -> c < ec -> ec <= List.length h -> ec - c <= fuel ->
     (forall k m, c < k -> k < ec -> h !! k = Some m ->
                  exists pk, parent m = Some pk /\ c <= pk) ->
     (forall k m pk, ec <= k -> h !! k = Some m -> parent m = Some pk ->
                     pk < c \/ ec <= pk) ->
     exists t, tree_of fuel h c = Some t
               /\ map data_of (preorder t) = slice h c ec) ->
  e <= List.length h -> e - i <= S fuel ->
  (forall k m, i < k -> k < e -> h !! k = Some m ->
               exists pk, parent m = Some pk /\ i <= pk) ->
  (forall k m pk, e <= k -> h !! k = Some m -> parent m = Some pk ->
                  pk < i \/ e <= pk) ->
  forall cs s,
    i < s -> s <= e ->
    StronglySorted lt cs ->
    (forall c, In c cs <-> (s <= c /\ c < e /\ child_of h i c)) ->
    starts_at cs s e ->
    exists ks,
      Forall2 (fun c t => tree_of fuel h c = Some t) cs ks
      /\ flat_map (fun t => map data_of (preorder t)) ks = slice h s e.
Proof.
  intros IH He Hfuel HR H3.
  induction cs as [|c rest IHcs]; intros s His Hse Hsorted Hmem Hstart.
  - simpl in Hstart. subst s. exists []. split; [constructor|].
    rewrite slice_nil. reflexivity.
  - simpl in Hstart. subst c.
    destruct (proj1 (Hmem s) (or_introl eq_refl)) as (_ & Hlt & dc & Hdc & Hpc).
    set (ec := match rest with [] => e | c' :: _ => c' end).
    assert (Hrest : forall x, In x rest -> ec <= x /\ x < e /\ child_of h i x).
    { intros x Hx. destruct (proj1 (Hmem x) (or_intror Hx)) as (_ & Hxe & Hch).
      split; [|split; assumption].
      unfold ec. destruct rest as [|c' rest']; [destruct Hx|].
      destruct Hx as [->|Hx]; [lia|].
      inversion Hsorted as [|? ? Hs' _]; subst.
      pose proof (sorted_head_le _ _ _ Hs' Hx). lia. }
    assert (Hec : s < ec /\ ec <= e).
    { unfold ec. destruct rest as [|c' rest']; [lia|].
      pose proof (sorted_head_le s (c' :: rest') c' Hsorted (or_introl eq_refl)).
      destruct (Hrest c' (or_introl eq_refl)) as (_ & ? & _). lia. }
    assert (Hgap : forall k, s < k -> k < ec -> ~ child_of h i k).
    { intros k Hsk Hkec Hch.
      assert (Hin : In k (s :: rest)) by (apply Hmem; repeat split; [lia|lia|exact Hch]).
      destruct Hin as [->|Hin]; [lia|].
      destruct (Hrest k Hin) as (? & _). lia. }
    assert (Hecchild : ec < e -> child_of h i ec).
    { intros Hlt'. unfold ec in *. destruct rest as [|c' rest']; [lia|].
      apply (Hrest c' (or_introl eq_refl)). }
    destruct (IH s ec dc Hdc (proj1 Hec)) as (t & Ht & Hpre); [lia|lia| | |].
    { intros k m Hsk Hkec Hm.
      destruct (HR k m) as (pk & Hpk & Hipk); [lia|lia|exact Hm|].
      exists pk. split; [exact Hpk|].
      destruct (decide (s <= pk)) as [|Hn]; [assumption|exfalso].
      destruct (decide (pk = i)) as [->|Hne].
      - apply (Hgap k Hsk Hkec). exists m. split; assumption.
      - destruct (Hnest k m pk s dc Hm Hpk) as (ps & Hps & Hle);
          [lia|lia|exact Hdc|].
        rewrite Hpc in Hps. injection Hps as <-. lia. }
    { intros k m pk Hk Hm Hpk.
      destruct (decide (pk < s)) as [|Hn1]; [left; assumption|].
      destruct (decide (ec <= pk)) as [|Hn2]; [right; assumption|exfalso].
      destruct (decide (e <= k)) as [Hek|Hke].
      - destruct (H3 k m pk Hek Hm Hpk); lia.
      - assert (Hece : ec < e) by lia.
        destruct (Hecchild Hece) as (mec & Hmec & Hpec).
        destruct (decide (k = ec)) as [->|Hne].
        + rewrite Hmec in Hm. injection Hm as <-. rewrite Hpec in Hpk.
          injection Hpk as <-. lia.
        + destruct (Hnest k m pk ec mec Hm Hpk) as (pe & Hpe & Hle);
            [lia|lia|exact Hmec|].
          rewrite Hpec in Hpe. injection Hpe as <-. lia. }
    destruct (IHcs ec) as (ks & Hks & Hflat); [lia|lia| | | |].
    { inversion Hsorted; assumption. }
    { intros x. split.
      - apply Hrest.
      - intros (Hx1 & Hx2 & Hch).
        assert (Hin : In x (s :: rest))
          by (apply Hmem; repeat split; [lia|lia|exact Hch]).
        destruct Hin as [->|Hin]; [lia|exact Hin]. }
    { unfold ec. destruct rest; reflexivity. }
    exists (t :: ks). split; [constructor; assumption|].
    cbn [flat_map]. rewrite Hpre, Hflat. symmetry. apply slice_app; lia.
Qed.

(** The tree below the node at [i], when the nodes from [i] to [e] are
    the node and everything that hangs below it. *)
Lemma subtree_slice fuel :
  forall i e d,
    h !! i = Some d -> i < e -> e <= List.length h -> e - i <= fuel ->
    (forall k m, i < k -> k < e -> h !! k = Some m ->
                 exists pk, parent m = Some pk /\ i <= pk) ->
    (forall k m pk, e <= k -> h !! k = Some m -> parent m = Some pk ->
                    pk < i \/ e <= pk) ->
    exists t, tree_of fuel h i = Some t
              /\ map data_of (preorder t) = slice h i e.
Proof.
  induction fuel as [|fuel IH]; intros i e d Hd Hie He Hfuel HR H3; [lia|].
  cbn [tree_of]. rewrite Hd.
  destruct (Htree i d Hd) as [_ [Hsorted Hkids]].
  assert (Hnext : S i < e -> child_of h i (S i)).
  { intros Hlt.
    destruct (lookup_lt_is_Some_2 h (S i)) as [m Hm]; [lia|].
    destruct (HR (S i) m) as (pk & Hpk & Hle); [lia|lia|exact Hm|].
    pose proof (parent_earlier _ _ _ Hm Hpk).
    exists m. split; [exact Hm|]. rewrite Hpk. f_equal. lia. }
  assert (Hmem : forall c, In c (children d)
                           <-> (S i <= c /\ c < e /\ child_of h i c)).
  { intros c. split.
    - intros Hc. destruct (Hkids c Hc) as (m & Hm & Hp).
      pose proof (parent_earlier _ _ _ Hm Hp).
      split; [lia|]. split; [|exists m; split; assumption].
      destruct (decide (c < e)) as [|Hn]; [assumption|exfalso].
      destruct (H3 c m i) as [|]; [lia|exact Hm|exact Hp|lia|lia].
    - intros (_ & _ & m & Hm & Hp). exact (child_listed i d c m Hd Hm Hp). }
  destruct (kids_slice fuel i e IH He Hfuel HR H3 (children d) (S i))
    as (ks & Hks & Hflat); [lia|lia|exact Hsorted|exact Hmem| |].
  { destruct (children d) as [|c rest] eqn:Hcs; simpl.
    - destruct (decide (S i = e)) as [|Hne]; [assumption|exfalso].
      assert (Hlt : S i < e) by lia.
      apply (proj2 (Hmem (S i))).
      split; [lia|]. split; [lia|apply Hnext, Hlt].
    - pose proof (proj1 (Hmem c) (or_introl eq_refl)) as (Hc1 & Hc2 & _).
      assert (Hin : In (S i) (c :: rest)).
      { apply Hmem. split; [lia|]. split; [lia|apply Hnext; lia]. }
      destruct Hin as [->|Hin]; [reflexivity|].
      pose proof (sorted_head_le _ _ _ Hsorted Hin). lia. }
  rewrite (mapM_Some_2 _ _ _ Hks). exists (Node d ks). split; [reflexivity|].
  cbn [preorder map data_of].
  rewrite (slice_cons h i e d Hd Hie). f_equal.
  rewrite <- Hflat. clear. induction ks as [|k ks IHk]; simpl; [reflexivity|].
  rewrite map_app, IHk. reflexivity.
Qed.

(** The whole store is the pre-order of the tree of its first node. *)
Lemma store_is_preorder d :
  h !! 0 = Some d ->
  exists t, tree_of (List.length h) h 0 = Some t
            /\ map data_of (preorder t) = h.
Proof.
  intros Hd.
  assert (Hlen : 0 < List.length h) by (eapply lookup_lt_Some; eauto).
  destruct (subtree_slice (List.length h) 0 (List.length h) d Hd Hlen)
    as (t & Ht & Hpre); [lia|lia| | |].
  - intros k m Hk _ Hm.
    destruct (tree_ok_parent h k m Htree Hm) as (q & pn & Hq & _); [lia|].
    exists q. split; [exact Hq|lia].
  - intros k m pk Hk Hm. apply lookup_lt_Some in Hm. lia.
  - exists t. split; [exact Ht|]. rewrite Hpre. apply slice_full.
Qed.

End NestedStore.

(** *** The tree of a parse *)

Lemma parse_preorder parser lines p r :
  parse parser lines = Ok (p, r) ->
  exists t, tree_of (List.length (heap p)) (heap p) r = Some t
            /\ map data_of (preorder t) = heap p.
Proof.
  intros H. pose proof (parse_nested _ _ _ _ H) as Hn.
  apply parse_tree_ok in H as (-> & Ht & Hs).
  destruct Hs as (_ & [st Hst] & Hstack).
  destruct (Hstack 0 0) as (d & Hd & _); [rewrite Hst; reflexivity|].
  exact (store_is_preorder (heap p) Ht Hn d Hd).
Qed.

(** X7.  The pre-order walk of the tree a successful parse returns visits the
    nodes in the order in which the parser made them, which is the order
    of their lines in the document, each node once. *)
Theorem parse_preorder_is_document_order parser lines p r :
  parse parser lines = Ok (p, r) ->
  exists t, tree_of (List.length (heap p)) (heap p) r = Some t
            /\ map data_of (preorder t) = heap p.
Proof.
  intros H. pose proof (parse_nested _ _ _ _ H) as Hn.
  apply parse_tree_ok in H as (-> & Ht & Hs).
  destruct Hs as (_ & [st Hst] & Hstack).
  destruct (Hstack 0 0) as (d & Hd & _); [rewrite Hst; reflexivity|].
  destruct (store_is_preorder (heap p) Ht Hn d Hd) as (t & Htree & Hpre).
  exists t. split; [exact Htree|exact Hpre].
Qed.

Lemma parse_preorder_is_document_order_witness :
  exists p t,
    parse TikiParser_new ["Spec"; "* Alpha"; "*-* Part"; "text"; "* Beta"]
    = Ok (p, 0)
    /\ tree_of (List.length (heap p)) (heap p) 0 = Some t
    /\ map data_of (preorder t) = heap p
    /\ map title (heap p) = ["Spec"; "Alpha"; "Part"; "Beta"].
Proof.
  assert (E : exists p,
             parse TikiParser_new ["Spec"; "* Alpha"; "*-* Part"; "text"; "* Beta"]
             = Ok (p, 0)
             /\ map title (heap p) = ["Spec"; "Alpha"; "Part"; "Beta"]).
  { eexists. split; vm_compute; reflexivity. }
  destruct E as (p & E & Hti).
  destruct (parse_preorder_is_document_order _ _ _ _ E) as (t & Ht & Hp).
  exists p, t. exact (conj E (conj Ht (conj Hp Hti))).
Defined.

(** ** What [handle_validate] reports *)

Lemma descendants_tail t :
  map data_of (Cli.descendants t) = tail (map data_of (preorder t)).
Proof. destruct t as [d ks]. reflexivity. Qed.

Lemma max_depth_list_max t :
  Cli.max_depth t
  = list_max (map (fun node => depth (data_of node)) (Cli.descendants t)).
Proof. unfold Cli.max_depth. destruct (Cli.descendants t); reflexivity. Qed.

(** X8.  The concept count that [handle_validate] prints for a document is the
    number of nodes the parser made, and the maximal depth it prints is
    the largest [depth] among the nodes after the root. *)
Theorem validate_counts_every_node parser lines p r t :
  parse parser lines = Ok (p, r) ->
  tree_of (List.length (heap p)) (heap p) r = Some t ->
  Cli.concept_count t = List.length (heap p)
  /\ Cli.max_depth t = list_max (map depth (tail (heap p))).
Proof.
  intros H Ht. destruct (parse_preorder _ _ _ _ H) as (t' & Ht' & Hp).
  rewrite Ht in Ht'. injection Ht' as <-. split.
  - unfold Cli.concept_count.
    rewrite <- (length_map data_of), descendants_tail, Hp.
    destruct (heap p) as [|d0 h] eqn:Eh; simpl; [|lia].
    destruct t; discriminate.
  - rewrite max_depth_list_max, <- Hp, <- descendants_tail, map_map.
    reflexivity.
Qed.

Lemma validate_counts_every_node_witness :
  exists p t,
    parse TikiParser_new ["Spec"; "* Alpha"; "*-* Part"; "text"; "* Beta"]
    = Ok (p, 0)
    /\ tree_of (List.length (heap p)) (heap p) 0 = Some t
    /\ Cli.concept_count t = 4 /\ Cli.max_depth t = 2.
Proof.
  assert (E : exists p t,
             parse TikiParser_new ["Spec"; "* Alpha"; "*-* Part"; "text"; "* Beta"]
             = Ok (p, 0)
             /\ tree_of (List.length (heap p)) (heap p) 0 = Some t
             /\ List.length (heap p) = 4
             /\ list_max (map depth (tail (heap p))) = 2).
  { eexists _, _. split; [vm_compute; reflexivity|].
    split; [vm_compute; reflexivity|]. split; vm_compute; reflexivity. }
  destruct E as (p & t & E & Ht & Hlen & Hmax).
  destruct (validate_counts_every_node _ _ _ _ _ E Ht) as [Hc Hd].
  exists p, t. rewrite Hc, Hd. exact (conj E (conj Ht (conj Hlen Hmax))).
Defined.

(** ** The export and the search of a parsed document *)

Lemma shown_expanded_true en c :
  expanded (data_of c) = true -> Renderer.shown_expanded en c = true.
Proof. intros H. unfold Renderer.shown_expanded. rewrite H. apply orb_true_r. Qed.

Lemma shown_below_all en t :
  Forall (fun x => expanded (data_of x) = true) (flat_map preorder (kids_of t)) ->
  shown_below en t = flat_map preorder (kids_of t).
Proof.
  induction t as [d ks IH] using Tree_ind_kids.
  cbn [kids_of shown_below]. intros Hall.
  induction IH as [|c ks Hc _ IHks]; [reflexivity|].
  cbn [flat_map] in *. apply Forall_app in Hall as [Hc' Hks'].
  rewrite (IHks Hks'). f_equal. destruct c as [dc kc].
  cbn [preorder kids_of] in *. apply Forall_cons in Hc' as [He Hk'].
  f_equal. rewrite (shown_expanded_true en (Node dc kc) He). cbn [andb].
  unfold Renderer.has_children. cbn [kids_of].
  destruct kc as [|k kc]; [reflexivity|]. apply Hc, Hk'.
Qed.

Lemma label_expanded en c :
  expanded (data_of c) = true ->
  Rich.child_label_text en c
  = (node_id (data_of c) ++ " " ++ title (data_of c))%string.
Proof.
  intros H. unfold Rich.child_label_text.
  rewrite (shown_expanded_true en c H), andb_false_r. reflexivity.
Qed.

Lemma Forall2_impl_in_r {A B} (R R' : A -> B -> Prop) l k :
  Forall2 R l k -> (forall x y, In y k -> R x y -> R' x y) -> Forall2 R' l k.
Proof.
  induction 1 as [|x y l k Hxy _ IH]; intros Hi; constructor.
  - apply Hi; [left; reflexivity|exact Hxy].
  - apply IH. intros x' y' Hy. apply Hi. right. exact Hy.
Qed.

(** X10.  The plain export of a document as the parser returns it has one line
    for every node, in document order: the title of the root, then for
    each later node a line that ends in its id, a space and its title.
    Nothing is collapsed, whatever [expanded_nodes] holds. *)
Theorem export_lists_every_parsed_node parser lines p r t en :
  parse parser lines = Ok (p, r) ->
  tree_of (List.length (heap p)) (heap p) r = Some t ->
  exists rest,
    Renderer._build_ascii_lines t [title (data_of t)] "" true (default ∅ en)
    = title (data_of t) :: rest
    /\ Forall2 (fun line n => ends_with line (node_id n ++ " " ++ title n)%string)
         rest (tail (heap p)).
Proof.
  intros H Ht. destruct (parse_preorder _ _ _ _ H) as (t' & Ht' & Hp).
  rewrite Ht in Ht'. injection Ht' as <-.
  pose proof (parse_fresh _ _ _ _ H) as Hfresh.
  exists (Renderer._build_ascii_lines t [] "" true (default ∅ en)).
  split; [rewrite build_ascii_lines_acc; reflexivity|].
  assert (Hall : Forall (fun x => expanded (data_of x) = true) (preorder t)).
  { rewrite <- Hp in Hfresh. apply Forall_forall. intros x Hx.
    rewrite Forall_forall in Hfresh.
    destruct (Hfresh (data_of x)) as (_ & _ & _ & He); [|exact He].
    apply list_elem_of_fmap. exists x. auto. }
  rewrite <- Hp. destruct t as [d ks]. cbn [preorder map tail] in *.
  apply Forall_cons in Hall as [_ Hall].
  pose proof (ascii_lines_shown (Node d ks) "" true (default ∅ en)) as Hl.
  rewrite (shown_below_all _ (Node d ks) Hall) in Hl. cbn [kids_of] in Hl.
  apply Forall2_map_l_r.
  eapply Forall2_impl_in_r; [exact Hl|].
  intros line c Hc Hends. cbv beta. rewrite Forall_forall in Hall.
  rewrite <- (label_expanded (default ∅ en) c); [exact Hends|].
  apply Hall, list_elem_of_In, Hc.
Qed.

Lemma export_lists_every_parsed_node_witness :
  exists p t rest,
    parse TikiParser_new ["Spec"; "* Alpha"; "*-* Part"; "text"; "* Beta"]
    = Ok (p, 0)
    /\ tree_of (List.length (heap p)) (heap p) 0 = Some t
    /\ Renderer._build_ascii_lines t [title (data_of t)] "" true ∅
       = title (data_of t) :: rest
    /\ Forall2 (fun line n => ends_with line (node_id n ++ " " ++ title n)%string)
         rest (tail (heap p)).
Proof.
  assert (E : exists p t,
             parse TikiParser_new ["Spec"; "* Alpha"; "*-* Part"; "text"; "* Beta"]
             = Ok (p, 0)
             /\ tree_of (List.length (heap p)) (heap p) 0 = Some t).
  { eexists _, _. split; vm_compute; reflexivity. }
  destruct E as (p & t & E & Ht).
  destruct (export_lists_every_parsed_node _ _ _ _ _ None E Ht)
    as (rest & Hr & Hf).
  exists p, t, rest. exact (conj E (conj Ht (conj Hr Hf))).
Defined.

Lemma map_filter_comm {A B} (f : A -> B) (g : B -> bool) l :
  map f (List.filter (fun x => g (f x)) l) = List.filter g (map f l).
Proof.
  induction l as [|x l IH]; simpl; [reflexivity|].
  destruct (g (f x)); simpl; congruence.
Qed.

(** X19.  The search reports the matching concepts of a parsed document in the
    order of their lines: the nodes found are the nodes the parser made,
    in that order, with those left out whose lowered title and id do not
    contain the text. *)
Theorem search_follows_document_order parser lines p r t query :
  parse parser lines = Ok (p, r) ->
  tree_of (List.length (heap p)) (heap p) r = Some t ->
  map data_of (Navigator._search_tree t query)
  = List.filter
      (fun n => Py.contains query (Py.lower (title n))
                || Py.contains query (Py.lower (node_id n)))
      (heap p).
Proof.
  intros H Ht. destruct (parse_preorder _ _ _ _ H) as (t' & Ht' & Hp).
  rewrite Ht in Ht'. injection Ht' as <-.
  unfold Navigator._search_tree. rewrite search_recursive_filter. cbn [app].
  rewrite <- Hp. unfold Navigator.node_matches.
  apply (map_filter_comm data_of
           (fun n => Py.contains query (Py.lower (title n))
                     || Py.contains query (Py.lower (node_id n)))).
Qed.

Lemma search_follows_document_order_witness :
  exists p t,
    parse TikiParser_new ["Spec"; "* Beta"; "*-* Part"; "text"; "* Alpha"]
    = Ok (p, 0)
    /\ tree_of (List.length (heap p)) (heap p) 0 = Some t
    /\ map title (map data_of (Navigator._search_tree t "a"))
       = ["Beta"; "Part"; "Alpha"].
Proof.
  assert (E : exists p t,
             parse TikiParser_new ["Spec"; "* Beta"; "*-* Part"; "text"; "* Alpha"]
             = Ok (p, 0)
             /\ tree_of (List.length (heap p)) (heap p) 0 = Some t
             /\ map title
                  (List.filter
                     (fun n => Py.contains "a" (Py.lower (title n))
                               || Py.contains "a" (Py.lower (node_id n)))
                     (heap p))
                = ["Beta"; "Part"; "Alpha"]).
  { eexists _, _. split; [vm_compute; reflexivity|].
    split; vm_compute; reflexivity. }
  destruct E as (p & t & E & Ht & Hf).
  exists p, t. split; [exact E|]. split; [exact Ht|].
  rewrite (search_follows_document_order _ _ _ _ _ "a" E Ht). exact Hf.
Defined.

(** ** Description text *)

Lemma parse_line_text sc raw c :
  in_frontmatter (self sc) = false ->
  current_concept sc = Some c ->
  text_line raw ->
  exists p',
    parse_line sc raw
    = Ok (mkScan p' (Some c) (pending_description_lines sc ++ [Py.rstrip raw]))
    /\ same_tree (self sc) p'
    /\ in_frontmatter p' = false.
Proof.
  intros Hfm Hc (Hf & Hs & Hpat). unfold parse_line.
  set (line := Py.rstrip raw) in *. rewrite Hf. cbn [andb].
  change (in_frontmatter (with_line_number _ (self sc)))
    with (in_frontmatter (self sc)).
  rewrite Hfm, Hc.
  destruct (code_block_pattern line) as [g1|].
  - eexists. split; [reflexivity|].
    split; [|destruct (in_code_block _); exact Hfm].
    destruct (in_code_block _); repeat split.
  - destruct (Py.strip line) eqn:E; [congruence|]. rewrite Hpat.
    eexists. split; [reflexivity|]. split; [repeat split|exact Hfm].
Qed.

Lemma parse_lines_text ds :
  Forall text_line ds ->
  forall sc c,
    in_frontmatter (self sc) = false ->
    current_concept sc = Some c ->
    exists p',
      parse_lines sc ds
      = Ok (mkScan p' (Some c)
              (pending_description_lines sc ++ map Py.rstrip ds))
      /\ same_tree (self sc) p'.
Proof.
  induction 1 as [|d ds Hd _ IH]; intros sc c Hfm Hc.
  - exists (self sc). cbn [parse_lines map]. rewrite app_nil_r.
    destruct sc as [p cc pd]. cbn in *. subst cc.
    split; [reflexivity|apply same_tree_refl].
  - destruct (parse_line_text sc d c Hfm Hc Hd) as (p1 & H1 & Hs1 & Hf1).
    cbn [parse_lines]. rewrite H1.
    destruct (IH (mkScan p1 (Some c) (pending_description_lines sc ++ [Py.rstrip d]))
                c Hf1 eq_refl) as (p2 & H2 & Hs2).
    exists p2. rewrite H2. cbn [pending_description_lines map self] in *.
    rewrite <- app_assoc. split; [reflexivity|].
    destruct Hs1 as (A1 & A2 & A3 & A4), Hs2 as (B1 & B2 & B3 & B4).
    repeat split; congruence.
Qed.

(** X20.  The description of the last concept of a document is the text that
    follows its line: when the lines [pre] leave a concept open without
    pending text, and only text lines follow, the parse succeeds and
    changes the store after [pre] in one place, the description of that
    concept, which becomes the text lines without their trailing
    whitespace, joined by newlines and stripped. *)
Theorem trailing_text_is_description parser pre ds sc c r :
  parse_lines (mkScan (reset parser) None []) pre = Ok sc ->
  in_frontmatter (self sc) = false ->
  current_concept sc = Some c ->
  pending_description_lines sc = [] ->
  root (self sc) = Some r ->
  Forall text_line ds -> ds <> [] ->
  exists p,
    parse parser (pre ++ ds) = Ok (p, r)
    /\ heap p
       = alter (set_description (Py.strip (Py.join_lines (map Py.rstrip ds))))
           c (heap (self sc)).
Proof.
  intros Hpre Hfm Hc Hpd Hr Hds Hne. unfold parse.
  rewrite parse_lines_app, Hpre.
  destruct (parse_lines_text ds Hds sc c Hfm Hc) as (p' & -> & Hs).
  cbn [self current_concept pending_description_lines]. rewrite Hpd. cbn [app].
  rewrite store_description_root.
  destruct Hs as (Hh & Hroot & _). rewrite Hroot, Hr.
  eexists. split; [reflexivity|].
  unfold store_description. destruct ds as [|d ds]; [congruence|].
  cbn [map]. cbn [heap with_heap]. rewrite Hh. reflexivity.
Qed.

Lemma trailing_text_is_description_witness :
  exists p,
    parse TikiParser_new (["Spec"; "* Alpha"] ++ ["  first  "; "```"; "second "])
    = Ok (p, 0)
    /\ map description (heap p) = [""; String.concat (String "010" "")
                                         ["first"; "```"; "second"]].
Proof.
  assert (E : exists sc,
             parse_lines (mkScan (reset TikiParser_new) None [])
               ["Spec"; "* Alpha"] = Ok sc
             /\ in_frontmatter (self sc) = false
             /\ current_concept sc = Some 1
             /\ pending_description_lines sc = []
             /\ root (self sc) = Some 0
             /\ map description
                  (alter (set_description
                            (Py.strip (Py.join_lines
                               (map Py.rstrip ["  first  "; "```"; "second "]))))
                     1 (heap (self sc)))
                = [""; String.concat (String "010" "") ["first"; "```"; "second"]]).
  { eexists. split; [vm_compute; reflexivity|].
    split; [reflexivity|]. split; [reflexivity|]. split; [reflexivity|].
    split; [reflexivity|]. vm_compute. reflexivity. }
  destruct E as (sc & E & Hfm & Hc & Hpd & Hr & Hd).
  destruct (trailing_text_is_description TikiParser_new ["Spec"; "* Alpha"]
              ["  first  "; "```"; "second "] sc 1 0 E Hfm Hc Hpd Hr)
    as (p & Hp & Hh).
  - repeat constructor; vm_compute; congruence.
  - discriminate.
  - exists p. split; [exact Hp|]. rewrite Hh. exact Hd.
Defined.

(** ** One root per document *)









